(** * arduino-cli-cmake-wrapper: the log-mining and token-filtering engine

    A shallow embedding of [miner.py], [parse.py] and [util.py] of the
    package [arduino_cli_cmake_wrapper], with the properties of its
    specification stated and settled against it.

    Python values are modelled as follows.
    - [str] is [string]: every character stands for the code point of
      its number, so that the strings are the texts of code points below
      256; text with other code points is not modelled;
    - [List[str]] is [list string];
    - a [Dict] is an association list in insertion order, read with
      [dict_get];
    - a raised exception is the [Raise] branch of [result], and every
      function that can raise returns a [result]. *)

From Stdlib Require Import String Ascii List Bool Arith ZArith Lia Permutation.
Import ListNotations.
Open Scope string_scope.
Open Scope list_scope.

Set Implicit Arguments.

(** ** Exceptions *)

(** Modelled from the spec: the enumeration [Stage] of [types.py], which
    is absent from the sources: the build phases compilation, core/archive
    build, and link. *)
Inductive Stage := COMPILATION | CORE | LINK.

(** Modelled from the spec: the enumeration [Source] of [types.py], which
    is absent from the sources: assembly, C, C++ and the primary sketch
    unit.  Iteration ([for source in Source]) follows [all_sources]. *)
Inductive Source := SRC_S | SRC_C | SRC_CPP | SRC_INO.

Definition all_sources : list Source := [SRC_S; SRC_C; SRC_CPP; SRC_INO].

Definition Stage_eqb (a b : Stage) : bool :=
  match a, b with
  | COMPILATION, COMPILATION | CORE, CORE | LINK, LINK => true
  | _, _ => false
  end.

Definition Source_eqb (a b : Source) : bool :=
  match a, b with
  | SRC_S, SRC_S | SRC_C, SRC_C | SRC_CPP, SRC_CPP | SRC_INO, SRC_INO => true
  | _, _ => false
  end.

(** The exceptions the modelled code raises.  [MissingStageException],
    [MultipleInvocationException] and [ArduinoCLIException] are the domain
    errors of [types.py]; the others are Python's own.  The text carried by
    a [ValueError] of [list.index] depends on the interpreter's version and
    is left empty. *)
Inductive exn :=
| MissingStageException (stage : Stage)
| MultipleInvocationException
| ArduinoCLIException (msg : string)
| ValueError (msg : string)
| IndexError
| AssertionError (msg : string)
| Exception (msg : string)
| ReError (pattern : string).

Inductive result (A : Type) :=
| Ok (a : A)
| Raise (e : exn).
Arguments Ok {A} a.
Arguments Raise {A} e.

Definition bind {A B} (m : result A) (k : A -> result B) : result B :=
  match m with
  | Ok a => k a
  | Raise e => Raise e
  end.

Notation "x <- m ;; k" := (bind m (fun x => k))
  (at level 61, m at next level, right associativity).
Notation "' p <- m ;; k" := (bind m (fun x => match x with p => k end))
  (at level 61, p pattern, m at next level, right associativity).

(** A list comprehension whose element expression can raise. *)
Fixpoint mapM {A B} (f : A -> result B) (l : list A) : result (list B) :=
  match l with
  | [] => Ok []
  | x :: l' => y <- f x ;; ys <- mapM f l' ;; Ok (y :: ys)
  end.

(** A list comprehension [[x for x in l if keep(x)]] whose condition can
    raise. *)
Fixpoint filterM {A} (keep : A -> result bool) (l : list A) : result (list A) :=
  match l with
  | [] => Ok []
  | x :: l' =>
      b <- keep x ;; xs <- filterM keep l' ;; Ok (if b then x :: xs else xs)
  end.

(** ** Python's built-in operations on strings and lists *)

Module Py.

Definition chars (s : string) : list ascii := list_ascii_of_string s.
Definition str (l : list ascii) : string := string_of_list_ascii l.

(** [s[:n]] *)
Fixpoint str_take (n : nat) (s : string) : string :=
  match n, s with
  | S n', String c s' => String c (str_take n' s')
  | _, _ => ""
  end.

Fixpoint str_drop (n : nat) (s : string) : string :=
  match n, s with
  | S n', String _ s' => str_drop n' s'
  | _, _ => s
  end.

(** [s.startswith(p)] *)
Fixpoint startswith (p s : string) : bool :=
  match p, s with
  | "", _ => true
  | String a p', String b s' => Ascii.eqb a b && startswith p' s'
  | _, _ => false
  end.

(** [s.endswith(p)] *)
Definition endswith (p s : string) : bool :=
  (String.length p <=? String.length s)%nat
  && String.eqb (str_drop (String.length s - String.length p) s) p.

(** [p in s] for strings *)
Fixpoint contains (p s : string) : bool :=
  startswith p s
  || match s with
     | "" => false
     | String _ s' => contains p s'
     end.

(** [s.replace(old, new)] for a non-empty [old]: the occurrences of [old]
    are replaced from left to right without overlap.  [skip] counts the
    characters of an occurrence that was just replaced. *)
Fixpoint replace_from (old new s : string) (skip : nat) : string :=
  match s with
  | "" => ""
  | String c s' =>
      match skip with
      | S k => replace_from old new s' k
      | O =>
          if startswith old s
          then (new ++ replace_from old new s' (String.length old - 1))%string
          else String c (replace_from old new s' 0)
      end
  end.

Definition replace (old new s : string) : string := replace_from old new s 0.

(** The characters [str.strip()] removes, which are the white space of
    Unicode: below 256 these are the space, the controls 9 to 13 and 28 to
    31, the next-line control 133 and the no-break space 160. *)
Definition isspace (c : ascii) : bool :=
  let n := nat_of_ascii c in
  ((n =? 32) || ((9 <=? n) && (n <=? 13)) || ((28 <=? n) && (n <=? 31))
   || (n =? 133) || (n =? 160))%nat.

Fixpoint lstrip_chars (l : list ascii) : list ascii :=
  match l with
  | c :: l' => if isspace c then lstrip_chars l' else l
  | [] => []
  end.

(** [s.strip()] *)
Definition strip (s : string) : string :=
  str (rev (lstrip_chars (rev (lstrip_chars (chars s))))).

(** [l.index(x)], which raises [ValueError] when [x] is not in [l]. *)
Fixpoint index (l : list string) (x : string) : result nat :=
  match l with
  | [] => Raise (ValueError "")
  | y :: l' => if String.eqb y x then Ok 0 else i <- index l' x ;; Ok (S i)
  end.

(** The bounds of a slice: a negative index counts from the end, and the
    result is clamped to the list. *)
Definition clamp (len : nat) (i : Z) : nat :=
  let j := if (i <? 0)%Z then (i + Z.of_nat len)%Z else i in
  Z.to_nat (Z.min (Z.max j 0) (Z.of_nat len)).

(** [l[start:stop]] *)
Definition slice {A} (l : list A) (start stop : Z) : list A :=
  let a := clamp (length l) start in
  let b := clamp (length l) stop in
  firstn (b - a) (skipn a l).

(** [l[start:]] *)
Definition slice_from {A} (l : list A) (start : Z) : list A :=
  skipn (clamp (length l) start) l.

(** [l[0]], which raises [IndexError] on the empty list. *)
Definition first {A} (l : list A) : result A :=
  match l with
  | x :: _ => Ok x
  | [] => Raise IndexError
  end.

(** [sep.join(l)] *)
Definition join (sep : string) (l : list string) : string :=
  String.concat sep l.

End Py.

(** A [Dict] in insertion order. *)
Definition dict (K V : Type) := list (K * V).

Section Dict.
Variables K V : Type.
Variable eqb : K -> K -> bool.

(** [d.get(k)] *)
Fixpoint dict_get (d : dict K V) (k : K) : option V :=
  match d with
  | [] => None
  | (k', v) :: d' => if eqb k' k then Some v else dict_get d' k
  end.

(** [d[k] = v]: an existing key keeps its position. *)
Fixpoint dict_set (d : dict K V) (k : K) (v : V) : dict K V :=
  match d with
  | [] => [(k, v)]
  | (k', v') :: d' =>
      if eqb k' k then (k', v) :: d' else (k', v') :: dict_set d' k v
  end.

(** [d.get(k, default)] *)
Definition dict_get_or (d : dict K V) (k : K) (default : V) : V :=
  match dict_get d k with
  | Some v => v
  | None => default
  end.

Definition dict_values (d : dict K V) : list V := map snd d.
Definition dict_keys (d : dict K V) : list K := map fst d.
End Dict.


(** ** [pathlib]: pure POSIX paths *)

Module Pathlib.

(** [s.split(sep)] for a one-character separator. *)
Fixpoint split_on (sep : ascii) (s : string) : list string :=
  match s with
  | "" => [""]
  | String c s' =>
      match split_on sep s' with
      | w :: ws => if Ascii.eqb c sep then "" :: w :: ws else String c w :: ws
      | [] => [String c ""]
      end
  end.

(** A path is its root (empty, one slash, or exactly two) and its
    components; empty components and [.] are dropped when it is built. *)
Record Path := { root : string; parts : list string }.

Definition path_root (s : string) : string :=
  if Py.startswith "///" s then "/"
  else if Py.startswith "//" s then "//"
  else if Py.startswith "/" s then "/"
  else "".

Definition is_component (w : string) : bool :=
  negb (String.eqb w "" || String.eqb w ".").

(** [Path(s)] *)
Definition make (s : string) : Path :=
  {| root := path_root s; parts := filter is_component (split_on "/" s) |}.

(** [p.name] *)
Definition name (p : Path) : string := last (parts p) "".

(** [p.parent] *)
Definition parent (p : Path) : Path :=
  {| root := root p; parts := removelast (parts p) |}.

(** [str(p)] *)
Definition to_str (p : Path) : string :=
  match root p, parts p with
  | "", [] => "."
  | r, ps => (r ++ Py.join "/" ps)%string
  end.

End Pathlib.

Abbreviation Path := Pathlib.Path.

(** ** [shlex.split] *)

Module Shlex.

(** The lexer's [state]: [None] after the end of the input, [' '] between
    tokens, ['a'] inside a word, a quote character inside a quoted part,
    and the escape character after a backslash. *)
Inductive lstate := LNone | LSpace | LWord | LQuote (q : ascii) | LEscape.

Definition whitespace (c : ascii) : bool :=
  Ascii.eqb c " " || Ascii.eqb c "009" || Ascii.eqb c "013" || Ascii.eqb c "010".

Definition quotes (c : ascii) : bool := Ascii.eqb c "'" || Ascii.eqb c "034".

Definition escape (c : ascii) : bool := Ascii.eqb c "\".

Definition escapedquotes (c : ascii) : bool := Ascii.eqb c "034".

Definition add (token : string) (c : ascii) : string :=
  (token ++ String c "")%string.

(** What [read_token] hands back when it leaves its loop: [None] for an
    empty token that was never quoted. *)
Definition token_result (token : string) (quoted : bool) : option string :=
  if negb quoted && String.eqb token "" then None else Some token.

Definition emit (token : string) (quoted : bool) (later : list string)
  : list string :=
  match token_result token quoted with
  | Some t => t :: later
  | None => later
  end.

(** The loop of [shlex.read_token] in POSIX mode with [whitespace_split]
    set and no comment characters, iterated as [list(lex)] does: each
    [break] of the loop hands over the token read so far and the next call
    starts with an empty token, [quoted] unset, and the state the lexer
    was left in.  One character of [instream] is read per turn. *)
Fixpoint tokens (instream : list ascii) (state escapedstate : lstate)
  (quoted : bool) (token : string) : result (list string) :=
  match state with
  | LNone => Ok []
  | LSpace =>
      match instream with
      | [] => Ok (emit token quoted [])
      | nextchar :: instream' =>
          if whitespace nextchar then
            if negb (String.eqb token "") || quoted then
              later <- tokens instream' LSpace LSpace false "" ;;
              Ok (emit token quoted later)
            else tokens instream' LSpace escapedstate quoted token
          else if escape nextchar then
            tokens instream' LEscape LWord quoted token
          else if quotes nextchar then
            tokens instream' (LQuote nextchar) escapedstate quoted token
          else tokens instream' LWord escapedstate quoted (String nextchar "")
      end
  | LQuote q =>
      match instream with
      | [] => Raise (ValueError "No closing quotation")
      | nextchar :: instream' =>
          if Ascii.eqb nextchar q then
            tokens instream' LWord escapedstate true token
          else if escape nextchar && escapedquotes q then
            tokens instream' LEscape (LQuote q) true token
          else tokens instream' (LQuote q) escapedstate true (add token nextchar)
      end
  | LEscape =>
      match instream with
      | [] => Raise (ValueError "No escaped character")
      | nextchar :: instream' =>
          let token :=
            match escapedstate with
            | LQuote q =>
                if negb (escape nextchar) && negb (Ascii.eqb nextchar q)
                then add token "\" else token
            | _ => token
            end in
          tokens instream' escapedstate escapedstate quoted (add token nextchar)
      end
  | LWord =>
      match instream with
      | [] => Ok (emit token quoted [])
      | nextchar :: instream' =>
          if whitespace nextchar then
            if negb (String.eqb token "") || quoted then
              later <- tokens instream' LSpace LSpace false "" ;;
              Ok (emit token quoted later)
            else tokens instream' LSpace escapedstate quoted token
          else if quotes nextchar then
            tokens instream' (LQuote nextchar) escapedstate quoted token
          else if escape nextchar then
            tokens instream' LEscape LWord quoted token
          else tokens instream' LWord escapedstate quoted (add token nextchar)
      end
  end.

(** [shlex.split(s)] *)
Definition split (s : string) : result (list string) :=
  tokens (Py.chars s) LSpace LSpace false "".

End Shlex.


(** ** Regular expressions *)

(** The interface of Python's [re] module the code relies on:
    [re.compile(pattern)], which raises on a malformed pattern, and
    [compiled.search(item) is not None]. *)
Class RegexEngine := {
  Pattern : Type;
  re_compile : string -> result Pattern;
  re_search : Pattern -> string -> bool
}.

(** The fragment of Python's pattern syntax the mined logs need: literal
    characters, [.], a backslash before a punctuation character, the
    anchors [^] and [$], and a bracketed set of literal characters.  Inside
    a set nothing is special: [$] and [|] there are the characters
    themselves.  Patterns with repetition, grouping, alternation or a
    class escape are outside the fragment and [compile] refuses them. *)
Module Re.

Inductive item :=
| Lit (c : ascii)
| AnyChar
| CharSet (members : list ascii)
| Bol
| Eol.

Definition regex := list item.

Definition newline : ascii := "010".

Definition is_alnum (c : ascii) : bool :=
  let n := nat_of_ascii c in
  (((48 <=? n) && (n <=? 57)) || ((65 <=? n) && (n <=? 90))
   || ((97 <=? n) && (n <=? 122)) || (128 <=? n))%nat.

Definition in_chars (c : ascii) (cs : list ascii) : bool :=
  existsb (Ascii.eqb c) cs.

(** Characters that start repetition, grouping or alternation. *)
Definition unsupported (c : ascii) : bool :=
  in_chars c ["*"; "+"; "?"; "{"; "("; ")"; "|"]%char.

(** Characters that are not plain members of a set. *)
Definition special_in_set (c : ascii) : bool :=
  in_chars c ["\"; "["; "^"; "-"]%char.

(** The members of a set up to its closing bracket, and the rest of the
    pattern. *)
Fixpoint parse_set (p : list ascii) : option (list ascii * list ascii) :=
  match p with
  | [] => None
  | c :: p' =>
      if Ascii.eqb c "]" then Some ([], p')
      else if special_in_set c then None
      else match parse_set p' with
           | Some (members, rest) => Some (c :: members, rest)
           | None => None
           end
  end.

Fixpoint parse (fuel : nat) (p : list ascii) : option regex :=
  match fuel with
  | O => None
  | S fuel' =>
      match p with
      | [] => Some []
      | c :: p' =>
          if Ascii.eqb c "\" then
            match p' with
            | e :: p'' =>
                if is_alnum e then None
                else option_map (cons (Lit e)) (parse fuel' p'')
            | [] => None
            end
          else if Ascii.eqb c "[" then
            match parse_set p' with
            | Some (e :: members, rest) =>
                option_map (cons (CharSet (e :: members))) (parse fuel' rest)
            | _ => None
            end
          else if Ascii.eqb c "." then option_map (cons AnyChar) (parse fuel' p')
          else if Ascii.eqb c "^" then option_map (cons Bol) (parse fuel' p')
          else if Ascii.eqb c "$" then option_map (cons Eol) (parse fuel' p')
          else if unsupported c then None
          else option_map (cons (Lit c)) (parse fuel' p')
      end
  end.

(** [re.compile(pattern)]; every step of [parse] reads at least one
    character, so the length of the pattern is fuel enough. *)
Definition compile (pattern : string) : result regex :=
  match parse (S (String.length pattern)) (Py.chars pattern) with
  | Some r => Ok r
  | None => Raise (ReError pattern)
  end.

(** Does [r] match a prefix of [s]?  [at_start] says that [s] is the whole
    subject.  [$] matches at the end of the subject and before a newline
    that ends it. *)
Fixpoint match_here (r : regex) (s : list ascii) (at_start : bool) : bool :=
  match r with
  | [] => true
  | Bol :: r' => at_start && match_here r' s at_start
  | Eol :: r' =>
      match s with
      | [] => match_here r' s at_start
      | [c] => Ascii.eqb c newline && match_here r' s at_start
      | _ => false
      end
  | Lit c :: r' =>
      match s with
      | c' :: s' => Ascii.eqb c c' && match_here r' s' false
      | [] => false
      end
  | AnyChar :: r' =>
      match s with
      | c' :: s' => negb (Ascii.eqb c' newline) && match_here r' s' false
      | [] => false
      end
  | CharSet members :: r' =>
      match s with
      | c' :: s' => in_chars c' members && match_here r' s' false
      | [] => false
      end
  end.

Fixpoint search_from (r : regex) (s : list ascii) (at_start : bool) : bool :=
  match_here r s at_start
  || match s with
     | [] => false
     | _ :: s' => search_from r s' false
     end.

(** [r.search(item) is not None] *)
Definition search (r : regex) (item : string) : bool :=
  search_from r (Py.chars item) true.

End Re.

#[export] Instance python_re : RegexEngine :=
  {| Pattern := Re.regex; re_compile := Re.compile; re_search := Re.search |}.

(** ** [util.py] *)

Section Util.
Context {RE : RegexEngine}.

(** [match_any(matches, item)]: true iff [item] matches anything in the
    list. *)
Definition match_any (matches : list string) (item : string) : result bool :=
  matchers <- mapM re_compile matches ;;
  Ok (existsb (fun potential => re_search potential item) matchers).

(** [match_all(matches, item)]: true iff [item] matches all items in the
    list. *)
Definition match_all (matches : list string) (item : string) : result bool :=
  matchers <- mapM re_compile matches ;;
  Ok (forallb (fun potential => re_search potential item) matchers).

End Util.

(** [safe_split(line, ignore_errors)]: the shell tokens of the line; on a
    quoting error, the empty list when [ignore_errors] is set, and otherwise
    a [ValueError] that carries the text of the line. *)
Definition safe_split (line : string) (ignore_errors : bool)
  : result (list string) :=
  match Shlex.split (Py.strip line) with
  | Ok toks => Ok toks
  | Raise (ValueError ve) =>
      if ignore_errors then Ok []
      else Raise (ValueError (ve ++ " in '" ++ line ++ "'")%string)
  | Raise e => Raise e
  end.

(** ** [miner.py] *)

(** A filter of the token algebra ([FilterProtocol]): the tokens, and
    [negate]. *)
Definition Filter := list string -> bool -> result (list string).

(** Modelled from the spec: [FilterProtocol.pass_all] of [types.py], which
    is absent from the sources: the filter that keeps every token, so that
    its dropped set, asked for with [negate], is empty. *)
Definition pass_all : Filter :=
  fun tokens negate => Ok (if negate then [] else tokens).

(** The value of a flag table: a boolean, or a predicate on the previous
    token. *)
Inductive Check :=
| Const (b : bool)
| Callable (check : string -> bool).

(** [enumerate(l)] *)
Definition enumerate {A} (l : list A) : list (nat * A) :=
  combine (seq 0 (length l)) l.

(** [real_source_names(source_mappings)] *)
Definition real_source_names (source_mappings : dict Source Path)
  : dict Source string :=
  map (fun '(source, value) =>
         (source,
          if negb (Source_eqb source SRC_INO) then Pathlib.name value
          else (Pathlib.name value ++ ".cpp")%string))
      source_mappings.

Section Miner.
Context {RE : RegexEngine}.

(** The inner [filterer] of [filter_by_flags] before [negate] is applied:
    the token is a flag of the table, or the previous token is a flag
    whose entry is true (or true of the previous token). *)
Definition flag_value (flags : dict string Check) (token previous : string)
  : result bool :=
  value <- match_any (dict_keys flags) (Py.str_take 2 token) ;;
  if value then Ok true
  else
    match_any
      (map fst
         (filter (fun '(flag, check) =>
                    match check with
                    | Callable check => check previous
                    | Const check => check
                    end)
                 flags))
      (Py.str_take 2 previous).

(** [filter_by_flags(flags, tokens, negate)].  The previous token of the
    first token is that token itself ([tokens[max(0, index - 1)]]). *)
Definition filter_by_flags (flags : dict string Check) : Filter :=
  fun tokens negate =>
    let filterer (token previous : string) : result bool :=
      value <- flag_value flags token previous ;;
      Ok (if negate then negb value else value) in
    kept <- filterM
              (fun '(index, token) =>
                 drop <- filterer token (nth (Nat.max 0 (index - 1)) tokens "") ;;
                 Ok (negb drop))
              (enumerate tokens) ;;
    Ok (map snd kept).

(** [filter_by_filenames(filenames, tokens, negate)] *)
Definition filter_by_filenames (filenames : list string) : Filter :=
  fun tokens negate =>
    let filterer (item : string) : result bool :=
      value <- match_any filenames item ;;
      Ok (if negate then negb value else value) in
    filterM (fun token => drop <- filterer token ;; Ok (negb drop)) tokens.

(** [identify_line(stage, stages, match, single)].  The candidates printed
    before [MultipleInvocationException] is raised are not modelled. *)
Definition identify_line (stage : Stage) (stages : dict Stage (list string))
  (match_ : string -> result bool) (single : bool) : result string :=
  let stage_lines := dict_get_or Stage_eqb stages stage [] in
  matching_lines <- filterM match_ stage_lines ;;
  match matching_lines with
  | [] => Raise (MissingStageException stage)
  | first :: _ =>
      if single && (1 <? length matching_lines)%nat
      then Raise MultipleInvocationException
      else Ok first
  end.

(** [sort_line(line, clean, sort)].  [clean] is called with the tokens
    only; [sort] is called twice, the second time with [negate]. *)
Definition sort_line (line : string)
  (clean : option (list string -> result (list string)))
  (sort : option Filter) : result (string * list string * list string) :=
  let clean :=
    match clean with
    | Some clean => clean
    | None => fun tokens => pass_all tokens false
    end in
  let sort := match sort with Some sort => sort | None => pass_all end in
  split <- safe_split line false ;;
  tokens <- clean split ;;
  match tokens with
  | [] => Raise (ArduinoCLIException "No tokens available")
  | first :: rest =>
      sorted <- sort rest false ;;
      negated <- sort rest true ;;
      Ok (first, sorted, negated)
  end.

(** [build_tokens(stages, sources)]: the compiler, the include paths and
    the other flags of each source kind. *)
Definition build_tokens (stages : dict Stage (list string))
  (sources : dict Source Path)
  : result (dict Source string * dict Source (list string)
            * dict Source (list string)) :=
  let real_names := real_source_names sources in
  source_lines <-
    mapM (fun source =>
            let real_name :=
              dict_get_or Source_eqb real_names source "None" in
            line <- identify_line COMPILATION stages
                      (match_all [(real_name ++ "[ |$]")%string]) true ;;
            Ok (source, line))
         all_sources ;;
  let cleaner (items : list string) : result (list string) :=
    cleaned <- filter_by_flags [("-c", Const false); ("-o", Const true)]
                 items false ;;
    filter_by_filenames (dict_values real_names) cleaned false in
  let sorter : Filter :=
    filter_by_flags [("-I", Callable (fun item => String.eqb item "-I"))] in
  sorted_source_lines <-
    mapM (fun '(source, line) =>
            sorted <- sort_line line (Some cleaner) (Some sorter) ;;
            Ok (source, sorted))
         source_lines ;;
  let tools :=
    map (fun '(source, (tool, _, _)) => (source, tool)) sorted_source_lines in
  let non_include_paths :=
    map (fun '(source, (_, flags, _)) => (source, flags)) sorted_source_lines in
  let include_paths :=
    map (fun '(source, (_, _, includes)) =>
           (source,
            map (Py.replace "-I" "")
                (filter (fun path => negb (String.eqb path "-I")) includes)))
        sorted_source_lines in
  Ok (tools, include_paths, non_include_paths).

(** [identify_link_line(stages, source_objects)] *)
Definition identify_link_line (stages : dict Stage (list string))
  (source_objects : list string) : result string :=
  identify_line LINK stages (match_all source_objects) true.

(** [identify_archive_line(stages)] *)
Definition identify_archive_line (stages : dict Stage (list string))
  : result string :=
  identify_line CORE stages (match_all ["core\.a"]) false.

(** The object name of each source of the mapping. *)
Definition object_names_of (sources : dict Source Path) : list string :=
  map (fun name => (name ++ ".o")%string) (dict_values (real_source_names sources)).

(** [link_tokens(stages, sources)]: the linker, the link flags, the link
    objects and the link libraries. *)
Definition link_tokens (stages : dict Stage (list string))
  (sources : dict Source Path)
  : result (string * list string * list string * list string) :=
  let object_names := object_names_of sources in
  link_line <- identify_link_line stages object_names ;;
  let cleaner (items : list string) : result (list string) :=
    cleaned <- filter_by_flags [("-o", Const true)] items false ;;
    filter_by_filenames object_names cleaned false in
  let link_sorter : Filter :=
    filter_by_filenames
      ["\.o$"; "\.a$"; "^-l"; "--start-group$"; "--end-group$"] in
  '(linker, link_flags, linkables) <-
    sort_line link_line (Some cleaner) (Some link_sorter) ;;
  link_objects <- filter_by_filenames ["\.o$"] linkables true ;;
  link_libraries <-
    filter_by_filenames ["\.a$"; "^-l"; "--start-group$"; "--end-group$"]
      linkables true ;;
  Ok (linker, link_flags, link_objects, link_libraries).

(** [archive_tokens(stages)]: the archiver and its flags. *)
Definition archive_tokens (stages : dict Stage (list string))
  : result (string * list string) :=
  archive_line <- identify_archive_line stages ;;
  let archive_cleaner (tokens : list string) :=
    filter_by_filenames ["core\.a"; "\.o"] tokens false in
  '(archiver, archive_flags, ignored) <-
    sort_line archive_line (Some archive_cleaner) None ;;
  match ignored with
  | [] => Ok (archiver, archive_flags)
  | _ => Raise (AssertionError "Sort list not empty")
  end.

(** [post_link_lines(stages, sources)]: the lines of the link stage after
    the link line. *)
Definition post_link_lines (stages : dict Stage (list string))
  (sources : dict Source Path) : result (list string) :=
  let object_names := object_names_of sources in
  link_line <- identify_link_line stages object_names ;;
  let stage_lines := dict_get_or Stage_eqb stages LINK [] in
  index <- Py.index stage_lines link_line ;;
  Ok (Py.slice_from stage_lines (Z.of_nat index + 1)).

End Miner.

(** ** [parse.py] *)

(** [lines_between(output_lines, start_phrase, end_phrase)]: without an
    end phrase the slice stops at index [-1]. *)
Definition lines_between (output_lines : list string) (start_phrase : string)
  (end_phrase : option string) : result (list string) :=
  start_index <- Py.index output_lines start_phrase ;;
  stop_index <-
    match end_phrase with
    | None => Ok (-1)%Z
    | Some end_phrase =>
        i <- Py.index output_lines end_phrase ;; Ok (Z.of_nat i)
    end ;;
  Ok (Py.slice output_lines (Z.of_nat start_index + 1) stop_index).

Definition list_eqb (a b : list string) : bool :=
  if list_eq_dec string_dec a b then true else false.

(** The inner [filter_function] of [parse_compilation_commands]: filter
    out the [-o] flag and the input and output specifiers. *)
Definition compilation_filter (filename item : string) : bool :=
  negb (String.eqb item "-o")
  && negb (Py.endswith filename item)
  && negb (Py.endswith (filename ++ ".o")%string item)
  && negb (String.eqb item "-c").

(** [shell_split[:1] + shell_split[2:-3]] *)
Definition expected_command_values (shell_split : list string) : list string :=
  Py.slice shell_split 0 1 ++ Py.slice shell_split 2 (-3).

(** The compilation lines that contain the name of the object of
    [filename]. *)
Definition matching_lines_of (filename : string) (compilation_lines : list string)
  : list string :=
  filter (fun compilation_line =>
            Py.contains (filename ++ ".o")%string compilation_line)
         compilation_lines.

(** One turn of the loop of [parse_compilation_commands], for the file
    [path] of the mapping.  A [filter] object is always true, so the guard
    on [matching_lines] never raises, and a file with no line fails at
    [list(matching_lines)[0]].  The assertion's message is kept without
    the two lists it prints. *)
Definition compilation_command (compilation_lines : list string) (path : Path)
  : result (list string) :=
  let filename := Pathlib.name path in
  let matching_lines := matching_lines_of filename compilation_lines in
  line <- Py.first matching_lines ;;
  shell_split <- Shlex.split line ;;
  let necessary_command_values :=
    filter (compilation_filter filename) shell_split in
  if list_eqb necessary_command_values (expected_command_values shell_split)
  then Ok necessary_command_values
  else Raise (AssertionError
                "Necessary arguments are usually all but the last 3").

(** The loop over [mapping.items()], which fills [output_mapping]. *)
Fixpoint compilation_loop (compilation_lines : list string)
  (items : list (string * Path)) (output_mapping : dict string (list string))
  : result (dict string (list string)) :=
  match items with
  | [] => Ok output_mapping
  | (file_type, path) :: items' =>
      necessary <- compilation_command compilation_lines path ;;
      compilation_loop compilation_lines items'
        (dict_set String.eqb output_mapping file_type necessary)
  end.

(** [parse_compilation_commands(output_lines, mapping)] *)
Definition parse_compilation_commands (output_lines : list string)
  (mapping : dict string Path) : result (dict string (list string)) :=
  compilation_lines <-
    lines_between output_lines "Compiling sketch..."
      (Some "Compiling libraries...") ;;
  compilation_loop compilation_lines mapping [].

(** [parse_linker_commands(output_lines)]: the path of the core library and
    the linker command without its inputs and outputs. *)
Definition parse_linker_commands (output_lines : list string)
  : result (Path * list string) :=
  linking_lines <-
    lines_between output_lines "Linking everything together..." None ;;
  match linking_lines with
  | [] => Raise (Exception "Failed to find linking lines")
  | linking_line :: _ =>
      linker_shell_split <- Shlex.split linking_line ;;
      let core_library :=
        filter (Py.endswith "core.a") linker_shell_split in
      core <- Py.first core_library ;;
      let core_path := Pathlib.make core in
      let filter_function (item : string) : bool :=
        negb (String.eqb item "-o")
        && negb (Py.endswith "ino.elf" item)
        && negb (Py.endswith ".o" item)
        && negb (Py.endswith "core.a" item)
        && negb (Py.endswith
                   (Pathlib.to_str (Pathlib.parent (Pathlib.parent core_path)))
                   item) in
      Ok (core_path, filter filter_function linker_shell_split)
  end.


(** ** Vocabulary of the properties *)

(** The elements of [l] whose bit of [mask] is [b]. *)
Fixpoint select {A} (mask : list bool) (b : bool) (l : list A) : list A :=
  match mask, l with
  | m :: mask', x :: l' =>
      if Bool.eqb m b then x :: select mask' b l' else select mask' b l'
  | _, _ => []
  end.

(** The list that takes, index by index, the next element of [kept] where
    the bit of [mask] is [false] and the next element of [dropped] where it
    is [true]. *)
Fixpoint interleave {A} (mask : list bool) (kept dropped : list A) : list A :=
  match mask with
  | [] => []
  | false :: mask' =>
      match kept with
      | x :: kept' => x :: interleave mask' kept' dropped
      | [] => []
      end
  | true :: mask' =>
      match dropped with
      | x :: dropped' => x :: interleave mask' kept dropped'
      | [] => []
      end
  end.

(** [s] is [l] with some elements left out, the others in their order. *)
Inductive subseq {A} : list A -> list A -> Prop :=
| subseq_nil : subseq [] []
| subseq_skip x s l : subseq s l -> subseq s (x :: l)
| subseq_take x s l : subseq s l -> subseq (x :: s) (x :: l).

(** [kept] and [dropped] are complementary parts of [t]: one bit per index
    of [t] says to which of the two its token goes; both keep the order of
    [t], together they hold the tokens of [t] with their multiplicities,
    and putting them back index by index gives [t]. *)
Definition complementary (t kept dropped : list string) : Prop :=
  exists mask,
    length mask = length t
    /\ kept = select mask false t
    /\ dropped = select mask true t
    /\ subseq kept t
    /\ subseq dropped t
    /\ Permutation (kept ++ dropped) t
    /\ interleave mask kept dropped = t.

(** The two runs of a filter, without and with [negate], agree: they raise
    the same exception, or they return complementary parts of [t]. *)
Definition partition_of (t : list string) (plain negated : result (list string))
  : Prop :=
  match plain, negated with
  | Ok kept, Ok dropped => complementary t kept dropped
  | Raise e, Raise e' => e = e'
  | _, _ => False
  end.

(** ** List objects *)

(** A Python list is an object: the caller and the callee of a filter hold
    references to the same token list.  The store holds the list objects,
    and a reference is an index in it. *)
Definition store := list (list string).

Definition load (st : store) (r : nat) : list string := nth r st [].

(** A new list object, as a list comprehension builds one. *)
Definition alloc (st : store) (l : list string) : store * nat :=
  (st ++ [l], length st).

(** [st[r].append(x)] *)
Definition append_to (st : store) (r : nat) (x : string) : store :=
  firstn r st
  ++ match skipn r st with
     | [] => []
     | l :: others => (l ++ [x]) :: others
     end.

(** The list comprehension of a filter,
    [[token for index, token in enumerate(tokens) if not drop(...)]], run
    on the store.  The iterator holds the reference [tokens] and reads
    that object at [index] in every turn, for as long as there is an
    element at that index; [drop] sees the object as it is in that turn;
    a kept token is appended to the list object [out] that the
    comprehension builds.  [fuel] bounds the turns of the loop, and [None]
    is a loop that has not ended within it. *)
Fixpoint comprehension (fuel : nat)
  (drop : list string -> nat -> string -> result bool)
  (st : store) (tokens out index : nat) : option (result store) :=
  match fuel with
  | O => None
  | S fuel' =>
      match nth_error (load st tokens) index with
      | None => Some (Ok st)
      | Some token =>
          match drop (load st tokens) index token with
          | Raise e => Some (Raise e)
          | Ok true => comprehension fuel' drop st tokens out (S index)
          | Ok false =>
              comprehension fuel' drop (append_to st out token) tokens out
                (S index)
          end
      end
  end.

(** A filter called with a reference: the new list object is made, the
    comprehension fills it, and its reference is returned. *)
Definition run_comprehension (fuel : nat)
  (drop : list string -> nat -> string -> result bool)
  (st : store) (tokens : nat) : option (result (store * nat)) :=
  let '(st0, out) := alloc st [] in
  match comprehension fuel drop st0 tokens out 0 with
  | Some (Ok st') => Some (Ok (st', out))
  | Some (Raise e) => Some (Raise e)
  | None => None
  end.

(** [filter_by_flags(flags, tokens, negate)] called on the list object
    [tokens]: the previous token is read from that object. *)
Definition filter_by_flags_on {RE : RegexEngine} (flags : dict string Check)
  (fuel : nat) (st : store) (tokens : nat) (negate : bool)
  : option (result (store * nat)) :=
  run_comprehension fuel
    (fun current index token =>
       value <- flag_value flags token
                  (nth (Nat.max 0 (index - 1)) current "") ;;
       Ok (if negate then negb value else value))
    st tokens.

(** [filter_by_filenames(filenames, tokens, negate)] called on the list
    object [tokens]. *)
Definition filter_by_filenames_on {RE : RegexEngine} (filenames : list string)
  (fuel : nat) (st : store) (tokens : nat) (negate : bool)
  : option (result (store * nat)) :=
  run_comprehension fuel
    (fun _ _ token =>
       value <- match_any filenames token ;;
       Ok (if negate then negb value else value))
    st tokens.

(** The two runs of a filter on [t], without and with [negate], given the
    result of compiling the patterns the filter matches with.  When the
    patterns compile, both runs return, and they return complementary
    parts of [t].  When a pattern does not compile, both runs raise the
    exception of the compilation at the first token; on the empty list
    nothing is compiled and both return the empty list. *)
Definition filter_runs {P} (t : list string) (compiled : result P)
  (plain negated : result (list string)) : Prop :=
  match compiled with
  | Ok _ =>
      exists kept dropped,
        plain = Ok kept /\ negated = Ok dropped
        /\ complementary t kept dropped
  | Raise e =>
      match t with
      | [] => plain = Ok [] /\ negated = Ok []
      | _ :: _ => plain = Raise e /\ negated = Raise e
      end
  end.

(** A run of a filter on the store agrees with the filter on the content
    of its argument: it ends; where the filter returns [kept], the run
    returns a reference other than [tokens] to an object that holds
    [kept], and every object the store had, the argument among them,
    holds what it held; where the filter raises, the run raises the
    same. *)
Definition leaves_input (st : store) (tokens : nat)
  (pure : result (list string)) (run : option (result (store * nat))) : Prop :=
  match pure with
  | Ok kept =>
      exists st' out,
        run = Some (Ok (st', out))
        /\ load st' out = kept
        /\ out <> tokens
        /\ forall r, r < length st -> load st' r = load st r
  | Raise e => run = Some (Raise e)
  end.

(** ** Logs and mappings of the scenarios *)

(** A CORE stage in which the archiver runs twice. *)
Definition two_builds : dict Stage (list string) :=
  [(CORE, ["avr-ar rcs core.a a.o"; "echo done"; "avr-ar rcs core.a b.o"])].

Definition mentions_core (line : string) : bool := Py.contains "core.a" line.

(** The probe sources of [make_sketch], and the sketch itself. *)
Definition probe_sources : dict Source Path :=
  [(SRC_S, Pathlib.make "/tmp/sketch/special_input_file.S");
   (SRC_C, Pathlib.make "/tmp/sketch/special_input_file.c");
   (SRC_CPP, Pathlib.make "/tmp/sketch/special_input_file.cpp");
   (SRC_INO, Pathlib.make "/tmp/sketch/sketch.ino")].

(** A compilation line that names its input before its output. *)
Definition input_first (tool flags filename : string) : string :=
  (tool ++ " -c " ++ flags ++ " " ++ filename ++ " -o " ++ filename ++ ".o")%string.

(** The compilation line of the end-to-end scenario, which names its input
    last. *)
Definition input_last_line : string :=
  "avr-gcc -c -o special_input_file.c.o -Iinclude1 -Iinclude2 special_input_file.c".

(** A compilation stage with the C source compiled by [c_line]. *)
Definition compilation_stage (c_line : string) : dict Stage (list string) :=
  [(COMPILATION,
    [input_first "avr-gcc" "-Iinclude1 -Iinclude2" "special_input_file.S";
     c_line;
     input_first "avr-g++" "-Iinclude1 -Iinclude2" "special_input_file.cpp";
     input_first "avr-g++" "-Iinclude1 -Iinclude2" "sketch.ino.cpp"])].

(** The link stage of the end-to-end scenario. *)
Definition link_line : string :=
  "avr-gcc -o sketch.ino.elf a.o b.o core.a -lm --start-group --end-group".

Definition objcopy_line : string :=
  "avr-objcopy ... sketch.ino.elf sketch.hex".

Definition link_stage : dict Stage (list string) :=
  [(LINK, [link_line; objcopy_line])].

(** Sources whose object names are [a.o] and [b.o]. *)
Definition link_sources : dict Source Path :=
  [(SRC_C, Pathlib.make "a"); (SRC_CPP, Pathlib.make "b")].

(** [l[:-3]]: all but the last three tokens. *)
Definition all_but_last_three (l : list string) : list string :=
  Py.slice l 0 (-3).

(** A log whose compilation stage compiles [x.c] with its input before its
    output. *)
Definition small_log : list string :=
  ["Compiling sketch..."; "gcc -c -g x.c -o x.c.o"; "Compiling libraries..."].

Definition small_mapping : dict string Path := [("c", Pathlib.make "/tmp/x.c")].

(** The marker that opens the link stage. *)
Definition link_marker : string := "Linking everything together...".

(** ** The rest of [util.py] and [miner.py] *)

(** [s.index(c)] for a one-character [c], which raises [ValueError] when
    [c] is not in [s]. *)
Fixpoint str_index (s : string) (c : ascii) : result nat :=
  match s with
  | "" => Raise (ValueError "substring not found")
  | String d s' =>
      if Ascii.eqb d c then Ok 0 else i <- str_index s' c ;; Ok (S i)
  end.

(** [get_path_from_flag(item)]: extract a path from a given flag. *)
Definition get_path_from_flag (item : string) : Path :=
  if Py.startswith "-" item then
    match str_index item "=" with
    | Ok index => Pathlib.make (Py.str_drop (index + 1) item)
    | Raise _ => Pathlib.make (Py.str_drop 2 item)
    end
  else Pathlib.make item.

(** [prefixed_join(join_string, lines)]: join with the join string
    including the join string as prefix. *)
Definition prefixed_join (join_string : string) (lines : list string) : string :=
  (join_string ++ Py.join join_string lines)%string.

(** [string_dictionary_of_list(mapping, base_indent)]; [show] is [str] on
    the keys. *)
Definition string_dictionary_of_list {K} (show : K -> string)
  (mapping : dict K (list string)) (base_indent : nat) : string :=
  let joiner :=
    (String "010"%char "" ++ Py.str (repeat "009"%char base_indent))%string in
  prefixed_join joiner
    (map (fun '(key, lines) =>
            (show key
             ++ prefixed_join (joiner ++ String "009"%char "") lines)%string)
         mapping).

(** [sketch_cache(stages)]: the cache directory, two levels above the core
    archive named on the last line of the CORE stage. *)
Definition sketch_cache (stages : dict Stage (list string)) : result Path :=
  match dict_get Stage_eqb stages CORE with
  | None | Some [] => Raise (MissingStageException CORE)
  | Some core_lines =>
      split <- safe_split (last core_lines "") false ;;
      match filter (Py.endswith "core.a") split with
      | [] => Raise (AssertionError "Could not find core.a")
      | core_archive :: _ =>
          Ok (Pathlib.parent (Pathlib.parent (Pathlib.make core_archive)))
      end
  end.

(** ** Vocabulary of the further properties *)

(** [filter_by_flags] as one scan from left to right that carries the
    previous token along. *)
Fixpoint scan_flags {RE : RegexEngine} (flags : dict string Check)
  (negate : bool) (previous : string) (tokens : list string)
  : result (list string) :=
  match tokens with
  | [] => Ok []
  | token :: rest =>
      value <- flag_value flags token previous ;;
      kept <- scan_flags flags negate token rest ;;
      Ok (if (if negate then negb value else value) then kept else token :: kept)
  end.

(** The inner [filter_function] of [parse_linker_commands], for the core
    archive at [core_path]: filter out the [-o] flag and the input and
    output specifiers. *)
Definition linker_filter (core_path : Path) (item : string) : bool :=
  negb (String.eqb item "-o")
  && negb (Py.endswith "ino.elf" item)
  && negb (Py.endswith ".o" item)
  && negb (Py.endswith "core.a" item)
  && negb (Py.endswith
             (Pathlib.to_str (Pathlib.parent (Pathlib.parent core_path)))
             item).

(** The table of the cleaner of [build_tokens]. *)
Definition compile_cleaner_flags : dict string Check :=
  [("-c", Const false); ("-o", Const true)].

(** The table of the sorter of [build_tokens]. *)
Definition include_sorter_flags : dict string Check :=
  [("-I", Callable (fun item => String.eqb item "-I"))].

(** A character that the shell splitter and [strip] take as it is: no
    white space, no quote, no backslash. *)
Definition plain_char (c : ascii) : bool :=
  negb (Py.isspace c) && negb (Shlex.quotes c) && negb (Shlex.escape c).

(** A non-empty word of plain characters. *)
Definition plain_word (w : string) : bool :=
  negb (String.eqb w "") && forallb plain_char (Py.chars w).

(** * Properties *)

(** ** The error monad and list comprehensions *)

Lemma bind_Ok {A B} (m : result A) (k : A -> result B) (b : B) :
  bind m k = Ok b -> exists a, m = Ok a /\ k a = Ok b.
Proof.
  destruct m as [a | e]; simpl; intros H; [eauto | discriminate].
Qed.

Lemma filterM_pure {A} (p : A -> bool) (keep : A -> result bool) (l : list A) :
  (forall x, In x l -> keep x = Ok (p x)) ->
  filterM keep l = Ok (filter p l).
Proof.
  induction l as [| x l IH]; intros H; simpl; [reflexivity |].
  rewrite (H x (or_introl eq_refl)); simpl.
  rewrite IH by (intros y Hy; apply H; right; exact Hy); simpl.
  reflexivity.
Qed.

Lemma filterM_ext {A} (f g : A -> result bool) (l : list A) :
  (forall x, f x = g x) -> filterM f l = filterM g l.
Proof.
  intros H. induction l as [| x l IH]; simpl; [reflexivity |].
  rewrite H, IH. reflexivity.
Qed.

(** ** The filter algebra *)

Section Select.
Context {A : Type}.

Lemma select_subseq (mask : list bool) (b : bool) (l : list A) :
  length mask = length l -> subseq (select mask b l) l.
Proof.
  revert l; induction mask as [| m mask IH]; intros [| x l] H;
    simpl in *; try discriminate; [constructor |].
  injection H as H.
  destruct (Bool.eqb m b); [apply subseq_take | apply subseq_skip]; auto.
Qed.

Lemma select_interleave (mask : list bool) (l : list A) :
  length mask = length l ->
  interleave mask (select mask false l) (select mask true l) = l.
Proof.
  revert l; induction mask as [| m mask IH]; intros [| x l] H;
    simpl in *; try discriminate; [reflexivity |].
  injection H as H.
  destruct m; simpl; rewrite IH by assumption; reflexivity.
Qed.

Lemma select_Permutation (mask : list bool) (l : list A) :
  length mask = length l ->
  Permutation (select mask false l ++ select mask true l) l.
Proof.
  revert l; induction mask as [| m mask IH]; intros [| x l] H;
    simpl in *; try discriminate; [constructor |].
  injection H as H.
  destruct m; simpl.
  - apply Permutation_sym, Permutation_cons_app, Permutation_sym, IH, H.
  - apply perm_skip, IH, H.
Qed.

Lemma select_map {B} (f : A -> B) (mask : list bool) (b : bool) (l : list A) :
  map f (select mask b l) = select mask b (map f l).
Proof.
  revert l; induction mask as [| m mask IH]; intros [| x l]; simpl;
    try reflexivity.
  destruct (Bool.eqb m b); simpl; rewrite IH; reflexivity.
Qed.

(** A comprehension that keeps the elements whose [value], negated or not,
    is false: its two runs select by the same bits. *)
Lemma filterM_negate_Ok (value : A -> result bool) (l : list A) (mask : list bool)
  (negate : bool) :
  mapM value l = Ok mask ->
  filterM (fun x => drop <- (v <- value x ;; Ok (if negate then negb v else v)) ;;
                    Ok (negb drop)) l
  = Ok (select mask negate l).
Proof.
  revert mask; induction l as [| x l IH]; intros mask H; simpl in *.
  - injection H as <-. reflexivity.
  - destruct (value x) as [v | e]; simpl in *; [| discriminate].
    destruct (mapM value l) as [vs | e]; simpl in *; [| discriminate].
    injection H as <-.
    rewrite (IH vs eq_refl); simpl.
    destruct negate, v; reflexivity.
Qed.

Lemma filterM_negate_Raise (value : A -> result bool) (l : list A) (e : exn)
  (negate : bool) :
  mapM value l = Raise e ->
  filterM (fun x => drop <- (v <- value x ;; Ok (if negate then negb v else v)) ;;
                    Ok (negb drop)) l
  = Raise e.
Proof.
  induction l as [| x l IH]; intros H; simpl in *; [discriminate |].
  destruct (value x) as [v | e0]; simpl in *; [| congruence].
  destruct (mapM value l) as [vs | e1]; simpl in *; [discriminate |].
  injection H as <-.
  rewrite (IH eq_refl); reflexivity.
Qed.

Lemma mapM_length {B} (f : A -> result B) (l : list A) (r : list B) :
  mapM f l = Ok r -> length r = length l.
Proof.
  revert r; induction l as [| x l IH]; intros r H; simpl in *.
  - injection H as <-. reflexivity.
  - destruct (f x); simpl in *; [| discriminate].
    destruct (mapM f l); simpl in *; [| discriminate].
    injection H as <-. simpl. f_equal. apply IH. reflexivity.
Qed.

End Select.

Lemma select_complementary (mask : list bool) (t : list string) :
  length mask = length t ->
  complementary t (select mask false t) (select mask true t).
Proof.
  intros H. exists mask.
  repeat split; auto using select_subseq, select_Permutation, select_interleave.
Qed.

Lemma enumerate_snd {A} (l : list A) : map snd (enumerate l) = l.
Proof.
  unfold enumerate. generalize 0.
  induction l as [| x l IH]; intros n; simpl; [reflexivity |].
  f_equal. apply IH.
Qed.

Lemma enumerate_length {A} (l : list A) : length (enumerate l) = length l.
Proof.
  unfold enumerate. rewrite length_combine, length_seq. apply Nat.min_id.
Qed.

Section FilterAlgebra.
Context {RE : RegexEngine}.

Lemma filter_by_filenames_partition (filenames t : list string) :
  partition_of t (filter_by_filenames filenames t false)
                 (filter_by_filenames filenames t true).
Proof.
  unfold partition_of, filter_by_filenames; cbv zeta.
  destruct (mapM (match_any filenames) t) as [mask | e] eqn:E.
  - rewrite (filterM_negate_Ok _ _ false E), (filterM_negate_Ok _ _ true E).
    apply select_complementary, (mapM_length _ _ E).
  - rewrite (filterM_negate_Raise _ _ false E),
      (filterM_negate_Raise _ _ true E).
    reflexivity.
Qed.

Lemma filter_by_flags_partition (flags : dict string Check) (t : list string) :
  partition_of t (filter_by_flags flags t false) (filter_by_flags flags t true).
Proof.
  unfold partition_of, filter_by_flags; cbv zeta.
  set (value := fun it : nat * string =>
                  flag_value flags (snd it) (nth (Nat.max 0 (fst it - 1)) t "")).
  assert (run : forall negate : bool,
    filterM (fun '((index, token) : nat * string) =>
               drop <- (v <- flag_value flags token
                               (nth (Nat.max 0 (index - 1)) t "") ;;
                        Ok (if negate then negb v else v)) ;;
               Ok (negb drop)) (enumerate t)
    = filterM (fun it => drop <- (v <- value it ;;
                                   Ok (if negate then negb v else v)) ;;
                         Ok (negb drop)) (enumerate t)).
  { intros negate. apply filterM_ext. intros [index token]. reflexivity. }
  rewrite (run false), (run true).
  destruct (mapM value (enumerate t)) as [mask | e] eqn:E.
  - rewrite (filterM_negate_Ok _ _ false E), (filterM_negate_Ok _ _ true E).
    simpl. rewrite !select_map, enumerate_snd.
    apply select_complementary.
    rewrite (mapM_length _ _ E). apply enumerate_length.
  - rewrite (filterM_negate_Raise _ _ false E),
      (filterM_negate_Raise _ _ true E).
    reflexivity.
Qed.

Lemma filterM_total {A} (keep : A -> result bool) (l : list A) :
  (forall x, exists b, keep x = Ok b) -> exists r, filterM keep l = Ok r.
Proof.
  intros total. induction l as [| x l [r IH]]; simpl; [eauto |].
  destruct (total x) as [b ->]. rewrite IH. simpl. eauto.
Qed.

Lemma mapM_selected {A B C} (f : A -> result C) (sel : A * B -> bool)
  (d : list (A * B)) (r : list C) :
  mapM f (map fst d) = Ok r ->
  exists r', mapM f (map fst (filter sel d)) = Ok r'.
Proof.
  revert r. induction d as [| [k v] d IH]; intros r H; simpl in *; [eauto |].
  destruct (f k) as [y | e] eqn:Ek; simpl in H; [| discriminate].
  destruct (mapM f (map fst d)) as [ys | e]; simpl in H; [| discriminate].
  destruct (IH ys eq_refl) as [r' Hr'].
  destruct (sel (k, v)); simpl; [| eauto].
  rewrite Ek, Hr'. simpl. eauto.
Qed.

Lemma flag_value_compiled (flags : dict string Check) (ms : list Pattern)
  (token previous : string) :
  mapM re_compile (dict_keys flags) = Ok ms ->
  exists b, flag_value flags token previous = Ok b.
Proof.
  intros H. unfold flag_value, match_any. rewrite H. simpl.
  destruct (existsb _ ms); [eauto |].
  unfold dict_keys in H.
  destruct (mapM_selected re_compile
              (fun '((flag, check) : string * Check) =>
                 match check with
                 | Callable check => check previous
                 | Const check => check
                 end) flags H) as [r' ->].
  simpl. eauto.
Qed.

Lemma flag_value_raises (flags : dict string Check) (e : exn)
  (token previous : string) :
  mapM re_compile (dict_keys flags) = Raise e ->
  flag_value flags token previous = Raise e.
Proof.
  intros H. unfold flag_value, match_any. rewrite H. reflexivity.
Qed.

Lemma filter_by_flags_runs (flags : dict string Check) (t : list string) :
  filter_runs t (mapM re_compile (dict_keys flags))
    (filter_by_flags flags t false) (filter_by_flags flags t true).
Proof.
  pose proof (filter_by_flags_partition flags t) as P.
  unfold filter_runs.
  destruct (mapM re_compile (dict_keys flags)) as [ms | e] eqn:E.
  - assert (plain : exists kept, filter_by_flags flags t false = Ok kept).
    { unfold filter_by_flags; cbv zeta.
      destruct (@filterM_total _
                  (fun '((index, token) : nat * string) =>
                     drop <- (value <- flag_value flags token
                                         (nth (Nat.max 0 (index - 1)) t "") ;;
                              Ok (if false then negb value else value)) ;;
                     Ok (negb drop)) (enumerate t)) as [r Hr].
      - intros [index token].
        destruct (flag_value_compiled flags token
                    (nth (Nat.max 0 (index - 1)) t "") E) as [b ->].
        simpl. eauto.
      - rewrite Hr. simpl. eauto. }
    destruct plain as [kept Hkept]. rewrite Hkept in P.
    unfold partition_of in P.
    destruct (filter_by_flags flags t true) as [dropped | e']; [| contradiction].
    exists kept, dropped. auto.
  - destruct t as [| x t]; [split; reflexivity |].
    assert (plain : filter_by_flags flags (x :: t) false = Raise e).
    { unfold filter_by_flags, enumerate; cbv zeta. simpl.
      rewrite (flag_value_raises flags _ _ E). reflexivity. }
    rewrite plain in P |- *. unfold partition_of in P.
    destruct (filter_by_flags flags (x :: t) true) as [dropped | e'];
      [contradiction |].
    subst e'. split; reflexivity.
Qed.

Lemma filter_by_filenames_runs (filenames t : list string) :
  filter_runs t (mapM re_compile filenames)
    (filter_by_filenames filenames t false)
    (filter_by_filenames filenames t true).
Proof.
  pose proof (filter_by_filenames_partition filenames t) as P.
  unfold filter_runs.
  destruct (mapM re_compile filenames) as [ms | e] eqn:E.
  - assert (plain : exists kept, filter_by_filenames filenames t false = Ok kept).
    { unfold filter_by_filenames; cbv zeta. apply filterM_total.
      intros token. unfold match_any. rewrite E. simpl. eauto. }
    destruct plain as [kept Hkept]. rewrite Hkept in P.
    unfold partition_of in P.
    destruct (filter_by_filenames filenames t true) as [dropped | e'];
      [| contradiction].
    exists kept, dropped. auto.
  - destruct t as [| x t]; [split; reflexivity |].
    assert (plain : filter_by_filenames filenames (x :: t) false = Raise e).
    { unfold filter_by_filenames, match_any; cbv zeta. simpl.
      rewrite E. reflexivity. }
    rewrite plain in P |- *. unfold partition_of in P.
    destruct (filter_by_filenames filenames (x :: t) true) as [dropped | e'];
      [contradiction |].
    subst e'. split; reflexivity.
Qed.

End FilterAlgebra.

(** ** Filters on list objects *)

Lemma load_old (st more : store) (r : nat) :
  r < length st -> load (st ++ more) r = load st r.
Proof.
  intros H. unfold load. apply app_nth1. exact H.
Qed.

Lemma load_new (st : store) (l : list string) :
  load (st ++ [l]) (length st) = l.
Proof.
  unfold load. rewrite app_nth2, Nat.sub_diag by lia. reflexivity.
Qed.

Lemma append_to_new (st : store) (acc : list string) (x : string) :
  append_to (st ++ [acc]) (length st) x = st ++ [acc ++ [x]].
Proof.
  unfold append_to.
  rewrite firstn_app, firstn_all, Nat.sub_diag, skipn_app, skipn_all,
    Nat.sub_diag.
  simpl. rewrite app_nil_r. reflexivity.
Qed.

(** The loop of the comprehension from index [length pre] on, [acc] being
    what it has built: it ends within [length rest + 1] turns, and it
    builds what the comprehension over the indexed tokens keeps. *)
Lemma comprehension_run (drop : list string -> nat -> string -> result bool)
  (st : store) (tokens : nat) (rest : list string) :
  tokens < length st ->
  forall (pre acc : list string) (fuel : nat),
    load st tokens = pre ++ rest ->
    length rest < fuel ->
    comprehension fuel drop (st ++ [acc]) tokens (length st) (length pre)
    = Some (match filterM (fun '((index, token) : nat * string) =>
                             d <- drop (load st tokens) index token ;;
                             Ok (negb d))
                    (combine (seq (length pre) (length rest)) rest) with
            | Ok kept => Ok (st ++ [acc ++ map snd kept])
            | Raise e => Raise e
            end).
Proof.
  intros valid.
  induction rest as [| x rest IH]; intros pre acc fuel content enough;
    (destruct fuel as [| fuel]; [simpl in enough; lia |]);
    simpl; rewrite (load_old st [acc] valid), content.
  - rewrite !app_nil_r.
    rewrite (proj2 (nth_error_None pre (length pre)) (Nat.le_refl _)).
    reflexivity.
  - rewrite nth_error_app2, Nat.sub_diag by lia. simpl.
    rewrite <- content.
    assert (next : load st tokens = (pre ++ [x]) ++ rest)
      by (rewrite <- app_assoc; exact content).
    assert (index : S (length pre) = length (pre ++ [x]))
      by (rewrite length_app; simpl; lia).
    destruct (drop (load st tokens) (length pre) x) as [[|] | e]; simpl.
    + rewrite index, (IH (pre ++ [x]) acc fuel next) by (simpl in enough; lia).
      rewrite <- index.
      destruct (filterM _ (combine (seq (S (length pre)) (length rest)) rest));
        reflexivity.
    + rewrite append_to_new, index,
        (IH (pre ++ [x]) (acc ++ [x]) fuel next) by (simpl in enough; lia).
      rewrite <- index.
      destruct (filterM _ (combine (seq (S (length pre)) (length rest)) rest));
        simpl; [rewrite <- app_assoc |]; reflexivity.
    + reflexivity.
Qed.

(** A comprehension that does not use the index. *)
Lemma filterM_snd {A} (keep : A -> result bool) (l : list A) (n : nat) :
  match filterM (fun '((_, x) : nat * A) => keep x)
          (combine (seq n (length l)) l) with
  | Ok kept => filterM keep l = Ok (map snd kept)
  | Raise e => filterM keep l = Raise e
  end.
Proof.
  revert n. induction l as [| x l IH]; intros n; simpl; [reflexivity |].
  destruct (keep x) as [b | e]; simpl; [| reflexivity].
  specialize (IH (S n)).
  destruct (filterM _ (combine (seq (S n) (length l)) l)) as [kept | e];
    rewrite IH; simpl; [destruct b |]; reflexivity.
Qed.

Lemma run_comprehension_leaves_input
  (drop : list string -> nat -> string -> result bool)
  (st : store) (tokens fuel : nat) (pure : result (list string)) :
  tokens < length st ->
  length (load st tokens) < fuel ->
  pure = match filterM (fun '((index, token) : nat * string) =>
                          d <- drop (load st tokens) index token ;;
                          Ok (negb d))
                 (enumerate (load st tokens)) with
         | Ok kept => Ok (map snd kept)
         | Raise e => Raise e
         end ->
  leaves_input st tokens pure (run_comprehension fuel drop st tokens).
Proof.
  intros valid enough ->.
  unfold run_comprehension, alloc, enumerate.
  pose proof (@comprehension_run drop st tokens (load st tokens) valid [] []
                fuel eq_refl enough) as run.
  cbn [length app] in run. cbv beta iota zeta. rewrite run.
  destruct (filterM _ (combine (seq 0 (length (load st tokens)))
                         (load st tokens))) as [kept | e];
    simpl; [| reflexivity].
  exists (st ++ [map snd kept]), (length st).
  repeat split.
  - apply load_new.
  - lia.
  - intros r Hr. apply load_old, Hr.
Qed.

Section FiltersOnObjects.
Context {RE : RegexEngine}.

Lemma filter_by_flags_leaves_input (flags : dict string Check) (st : store)
  (tokens fuel : nat) (negate : bool) :
  tokens < length st ->
  length (load st tokens) < fuel ->
  leaves_input st tokens (filter_by_flags flags (load st tokens) negate)
    (filter_by_flags_on flags fuel st tokens negate).
Proof.
  intros valid enough. unfold filter_by_flags_on.
  apply run_comprehension_leaves_input; [exact valid | exact enough |].
  unfold filter_by_flags; cbv zeta.
  destruct (filterM _ (enumerate (load st tokens))); reflexivity.
Qed.

Lemma filter_by_filenames_leaves_input (filenames : list string) (st : store)
  (tokens fuel : nat) (negate : bool) :
  tokens < length st ->
  length (load st tokens) < fuel ->
  leaves_input st tokens (filter_by_filenames filenames (load st tokens) negate)
    (filter_by_filenames_on filenames fuel st tokens negate).
Proof.
  intros valid enough. unfold filter_by_filenames_on.
  apply run_comprehension_leaves_input; [exact valid | exact enough |].
  unfold filter_by_filenames, enumerate; cbv zeta.
  pose proof (filterM_snd
                (fun token =>
                   drop <- (value <- match_any filenames token ;;
                            Ok (if negate then negb value else value)) ;;
                   Ok (negb drop))
                (load st tokens) 0) as H.
  match type of H with
  | match ?m with _ => _ end =>
      match goal with
      | |- _ = match ?m' with _ => _ end => change m' with m
      end;
      destruct m
  end; exact H.
Qed.

(** C3: for every flag table and every token list, and likewise for every
    pattern set of [filter_by_filenames], the run without [negate] and the
    run with [negate] are fixed by whether the patterns compile.  When
    they compile, both runs return, and the tokens kept and the tokens
    dropped are complementary parts of the input: each index of the input
    goes to exactly one of the two outputs, both keep the original order,
    and interleaving them at the original indices gives the input back.
    When a pattern does not compile, both runs raise that exception on a
    list with a token, and both return the empty list on the empty list.
    The input list is left unmodified: called on a list object with
    enough fuel for one turn per token and the last test, either filter
    ends, returns a new object that holds the filtered tokens, and leaves
    every object of the store, its argument among them, as it was. *)
Theorem filters_partition_complementary :
  forall (flags : dict string Check) (filenames t : list string),
    filter_runs t (mapM re_compile (dict_keys flags))
      (filter_by_flags flags t false) (filter_by_flags flags t true)
    /\ filter_runs t (mapM re_compile filenames)
         (filter_by_filenames filenames t false)
         (filter_by_filenames filenames t true)
    /\ forall (st : store) (tokens fuel : nat) (negate : bool),
         tokens < length st ->
         load st tokens = t ->
         length t < fuel ->
         leaves_input st tokens (filter_by_flags flags t negate)
           (filter_by_flags_on flags fuel st tokens negate)
         /\ leaves_input st tokens (filter_by_filenames filenames t negate)
              (filter_by_filenames_on filenames fuel st tokens negate).
Proof.
  intros flags filenames t. split; [| split].
  - apply filter_by_flags_runs.
  - apply filter_by_filenames_runs.
  - intros st tokens fuel negate valid <- enough. split.
    + apply filter_by_flags_leaves_input; assumption.
    + apply filter_by_filenames_leaves_input; assumption.
Qed.

End FiltersOnObjects.

Lemma filters_partition_complementary_witness :
  0 < length [["-o"; "x.o"; "-Os"; "-c"]]
  /\ load [["-o"; "x.o"; "-Os"; "-c"]] 0 = ["-o"; "x.o"; "-Os"; "-c"]
  /\ length ["-o"; "x.o"; "-Os"; "-c"] < 5
  /\ filter_runs ["-o"; "x.o"; "-Os"; "-c"]
       (mapM re_compile (dict_keys [("-c", Const false); ("-o", Const true)]))
       (filter_by_flags [("-c", Const false); ("-o", Const true)]
          ["-o"; "x.o"; "-Os"; "-c"] false)
       (filter_by_flags [("-c", Const false); ("-o", Const true)]
          ["-o"; "x.o"; "-Os"; "-c"] true)
  /\ leaves_input [["-o"; "x.o"; "-Os"; "-c"]] 0
       (filter_by_flags [("-c", Const false); ("-o", Const true)]
          ["-o"; "x.o"; "-Os"; "-c"] false)
       (filter_by_flags_on [("-c", Const false); ("-o", Const true)] 5
          [["-o"; "x.o"; "-Os"; "-c"]] 0 false)
  /\ filter_by_flags_on [("-c", Const false); ("-o", Const true)] 5
       [["-o"; "x.o"; "-Os"; "-c"]] 0 false
     = Some (Ok ([["-o"; "x.o"; "-Os"; "-c"]; ["-Os"]], 1)).
Proof.
  pose proof (filters_partition_complementary
                [("-c", Const false); ("-o", Const true)] ["\.o$"]
                ["-o"; "x.o"; "-Os"; "-c"]) as (runs & _ & objects).
  assert (valid : 0 < length [["-o"; "x.o"; "-Os"; "-c"]]) by (simpl; lia).
  assert (enough : length ["-o"; "x.o"; "-Os"; "-c"] < 5) by (simpl; lia).
  split; [exact valid |].
  split; [reflexivity |].
  split; [exact enough |].
  split; [exact runs |].
  split; [exact (proj1 (objects [["-o"; "x.o"; "-Os"; "-c"]] 0 5 false
                          valid eq_refl enough)) |].
  vm_compute. reflexivity.
Defined.

(** ** Identifying the line of a stage *)

Section IdentifyLine.
Variable stage : Stage.
Variable stages : dict Stage (list string).
Variable match_ : string -> result bool.
Variable p : string -> bool.

Let stage_lines := dict_get_or Stage_eqb stages stage [].

(** The predicate does not raise on the lines of the stage, where it
    decides as [p] does. *)
Hypothesis match_decides :
  forall line, In line stage_lines -> match_ line = Ok (p line).

Lemma identify_line_filter (single : bool) :
  identify_line stage stages match_ single
  = match filter p stage_lines with
    | [] => Raise (MissingStageException stage)
    | first :: others =>
        if single && negb (Nat.eqb (length others) 0)
        then Raise MultipleInvocationException
        else Ok first
    end.
Proof.
  unfold identify_line. fold stage_lines.
  rewrite (filterM_pure p match_ stage_lines match_decides); simpl.
  destruct (filter p stage_lines) as [| first others]; [reflexivity |].
  simpl. destruct others; reflexivity.
Qed.

Lemma identify_line_none (single : bool) :
  (forall line, In line stage_lines -> p line = false) ->
  identify_line stage stages match_ single = Raise (MissingStageException stage).
Proof.
  intros none. rewrite identify_line_filter.
  destruct (filter p stage_lines) as [| first others] eqn:E; [reflexivity |].
  assert (Hin : In first (filter p stage_lines)) by (rewrite E; left; reflexivity).
  apply filter_In in Hin. destruct Hin as [Hin Hp].
  rewrite (none first Hin) in Hp. discriminate.
Qed.

Lemma filter_none {A} (q : A -> bool) (l : list A) :
  (forall x, In x l -> q x = false) -> filter q l = [].
Proof.
  induction l as [| x l IH]; intros H; simpl; [reflexivity |].
  rewrite (H x (or_introl eq_refl)). apply IH.
  intros y Hy. apply H. right. exact Hy.
Qed.

Lemma identify_line_first (pre post : list string) (line : string) :
  stage_lines = pre ++ line :: post ->
  (forall x, In x pre -> p x = false) ->
  p line = true ->
  identify_line stage stages match_ false = Ok line.
Proof.
  intros shape before here. rewrite identify_line_filter, shape.
  rewrite filter_app, (filter_none p pre before); simpl.
  rewrite here. reflexivity.
Qed.

Lemma identify_line_two (pre mid post : list string) (line1 line2 : string) :
  stage_lines = pre ++ line1 :: mid ++ line2 :: post ->
  p line1 = true ->
  p line2 = true ->
  identify_line stage stages match_ true = Raise MultipleInvocationException.
Proof.
  intros shape here1 here2. rewrite identify_line_filter, shape.
  rewrite filter_app; simpl. rewrite here1, filter_app; simpl. rewrite here2.
  destruct (filter p pre) as [| first others]; simpl.
  - rewrite length_app; simpl.
    replace (length (filter p mid) + S (length (filter p post)))
      with (S (length (filter p mid) + length (filter p post))) by lia.
    reflexivity.
  - rewrite !length_app; simpl. rewrite length_app; simpl.
    replace (length others
             + S (length (filter p mid) + S (length (filter p post))))
      with (S (length others
               + (length (filter p mid) + S (length (filter p post)))))
      by lia.
    reflexivity.
Qed.

Lemma identify_line_one (pre post : list string) (line : string) (single : bool) :
  stage_lines = pre ++ line :: post ->
  (forall x, In x (pre ++ post) -> p x = false) ->
  p line = true ->
  identify_line stage stages match_ single = Ok line.
Proof.
  intros shape others here. rewrite identify_line_filter, shape.
  rewrite filter_app; simpl. rewrite here.
  rewrite (filter_none p pre), (filter_none p post); simpl.
  - rewrite andb_false_r. reflexivity.
  - intros x Hx. apply others, in_or_app. right. exact Hx.
  - intros x Hx. apply others, in_or_app. left. exact Hx.
Qed.

End IdentifyLine.

(** C4: for every stage, stages map and match predicate (one that does not
    raise on the stage's lines): when no line of the stage satisfies the
    predicate, which includes an absent and an empty stage,
    [identify_line] raises [MissingStageException(stage)]; when [single] is
    set and at least two lines satisfy it, [identify_line] raises
    [MultipleInvocationException] and returns neither; when exactly one
    line satisfies it, that line is returned. *)
Theorem identify_line_contract :
  forall (stage : Stage) (stages : dict Stage (list string))
         (match_ : string -> result bool) (p : string -> bool),
    (forall line, In line (dict_get_or Stage_eqb stages stage []) ->
                  match_ line = Ok (p line)) ->
    (forall single,
        (forall line, In line (dict_get_or Stage_eqb stages stage []) ->
                      p line = false) ->
        identify_line stage stages match_ single
        = Raise (MissingStageException stage))
    /\ (forall pre mid post line1 line2,
           dict_get_or Stage_eqb stages stage []
           = pre ++ line1 :: mid ++ line2 :: post ->
           p line1 = true -> p line2 = true ->
           identify_line stage stages match_ true
           = Raise MultipleInvocationException)
    /\ (forall single pre post line,
           dict_get_or Stage_eqb stages stage [] = pre ++ line :: post ->
           (forall x, In x (pre ++ post) -> p x = false) ->
           p line = true ->
           identify_line stage stages match_ single = Ok line).
Proof.
  intros stage stages match_ p decides. repeat split.
  - intros single none. apply (identify_line_none _ _ _ p decides single none).
  - intros pre mid post line1 line2.
    apply (identify_line_two _ _ _ p decides).
  - intros single pre post line.
    apply (identify_line_one _ _ _ p decides).
Qed.

Lemma identify_line_contract_witness :
  identify_line LINK two_builds (fun line => Ok (mentions_core line)) true
  = Raise (MissingStageException LINK)
  /\ identify_line CORE two_builds (fun line => Ok (mentions_core line)) true
     = Raise MultipleInvocationException
  /\ identify_line CORE two_builds
       (fun line => Ok (String.eqb line "echo done")) true
     = Ok "echo done".
Proof.
  split; [| split].
  - refine (proj1 (identify_line_contract LINK two_builds _ mentions_core _)
              true _).
    + reflexivity.
    + intros line [].
  - refine (proj1 (proj2 (identify_line_contract CORE two_builds _
                            mentions_core _))
              [] ["echo done"] [] _ _ _ _ _); reflexivity.
  - refine (proj2 (proj2 (identify_line_contract CORE two_builds _
                            (fun line => String.eqb line "echo done") _))
              true ["avr-ar rcs core.a a.o"] ["avr-ar rcs core.a b.o"] _ _ _ _).
    + reflexivity.
    + reflexivity.
    + intros x [<- | [<- | []]]; reflexivity.
    + reflexivity.
Defined.

(** ** The archive line *)

Section MatchAll.
Context {RE : RegexEngine}.

(** Whether the patterns compile does not depend on the item. *)
Lemma match_all_forallb (matches : list string) (item : string) (b : bool) :
  match_all matches item = Ok b ->
  exists matchers,
    mapM re_compile matches = Ok matchers
    /\ forall other,
         match_all matches other
         = Ok (forallb (fun potential => re_search potential other) matchers).
Proof.
  unfold match_all. intros H.
  destruct (mapM re_compile matches) as [matchers | e]; [| discriminate].
  exists matchers. split; reflexivity.
Qed.

(** C10: for every stage with at least one line that satisfies the match
    predicate, [identify_line] with [single] unset returns the earliest
    such line in the order of the stage and does not raise the ambiguity
    error, however many lines satisfy the predicate after it; so
    [identify_archive_line] returns the first line of the CORE stage that
    matches the pattern of the core archive when several do. *)
Theorem identify_line_first_match :
  (forall (stage : Stage) (stages : dict Stage (list string))
          (match_ : string -> result bool) (p : string -> bool)
          (pre post : list string) (line : string),
      (forall x, In x (dict_get_or Stage_eqb stages stage []) ->
                 match_ x = Ok (p x)) ->
      dict_get_or Stage_eqb stages stage [] = pre ++ line :: post ->
      (forall x, In x pre -> p x = false) ->
      p line = true ->
      identify_line stage stages match_ false = Ok line)
  /\ (forall (stages : dict Stage (list string)) (pre post : list string)
             (line : string),
         dict_get_or Stage_eqb stages CORE [] = pre ++ line :: post ->
         (forall x, In x pre -> match_all ["core\.a"] x = Ok false) ->
         match_all ["core\.a"] line = Ok true ->
         identify_archive_line stages = Ok line).
Proof.
  split.
  - intros stage stages match_ p pre post line decides shape before here.
    apply (identify_line_first _ _ _ p decides pre post line shape before here).
  - intros stages pre post line shape before here.
    destruct (match_all_forallb _ _ here) as (matchers & _ & decides).
    unfold identify_archive_line.
    apply (identify_line_first CORE stages _
             (fun x => forallb (fun potential => re_search potential x) matchers)
             (fun x _ => decides x) pre post line shape).
    + intros x Hx. specialize (before x Hx). rewrite decides in before.
      injection before as before. exact before.
    + rewrite decides in here. injection here as here. exact here.
Qed.

End MatchAll.

Lemma identify_line_first_match_witness :
  identify_line CORE two_builds (fun line => Ok (mentions_core line)) false
  = Ok "avr-ar rcs core.a a.o"
  /\ identify_archive_line two_builds = Ok "avr-ar rcs core.a a.o".
Proof.
  split.
  - refine (proj1 identify_line_first_match CORE two_builds _ mentions_core
              [] ["echo done"; "avr-ar rcs core.a b.o"] _ _ _ _ _).
    + reflexivity.
    + reflexivity.
    + intros x [].
    + reflexivity.
  - refine (proj2 identify_line_first_match two_builds
              [] ["echo done"; "avr-ar rcs core.a b.o"] _ _ _ _).
    + reflexivity.
    + intros x [].
    + reflexivity.
Defined.

(** ** Sorting a line *)

(** C6: for every line that tokenizes into a non-empty token sequence,
    [sort_line] with the identity filters (the filter [pass_all], which
    keeps every token, given as such or taken when no filter is given)
    returns a triple (head, rest, []) whose head consed onto its rest is
    the tokenization of the line; and when the cleaned token sequence is
    empty, [sort_line] raises the no-tokens error instead of returning. *)
Theorem sort_line_identity :
  (forall (line : string) (tokens : list string),
      safe_split line false = Ok tokens ->
      tokens <> [] ->
      exists head rest,
        sort_line line None None = Ok (head, rest, [])
        /\ sort_line line (Some (fun tokens => pass_all tokens false))
             (Some pass_all) = Ok (head, rest, [])
        /\ head :: rest = tokens)
  /\ (forall (line : string) (sort : option Filter),
         safe_split line false = Ok [] ->
         sort_line line None sort
         = Raise (ArduinoCLIException "No tokens available"))
  /\ (forall (line : string) (clean : list string -> result (list string))
             (sort : option Filter) (tokens : list string),
         safe_split line false = Ok tokens ->
         clean tokens = Ok [] ->
         sort_line line (Some clean) sort
         = Raise (ArduinoCLIException "No tokens available")).
Proof.
  repeat split.
  - intros line tokens split nonempty.
    destruct tokens as [| head rest]; [contradiction nonempty; reflexivity |].
    exists head, rest. unfold sort_line. rewrite split. simpl. auto.
  - intros line sort split. unfold sort_line. rewrite split. reflexivity.
  - intros line clean sort tokens split cleaned.
    unfold sort_line. rewrite split. simpl. rewrite cleaned. reflexivity.
Qed.

Lemma sort_line_identity_witness :
  (exists head rest,
      sort_line "avr-gcc -Os 'a b'" None None = Ok (head, rest, [])
      /\ sort_line "avr-gcc -Os 'a b'" (Some (fun tokens => pass_all tokens false))
           (Some pass_all) = Ok (head, rest, [])
      /\ head :: rest = ["avr-gcc"; "-Os"; "a b"])
  /\ sort_line "   " None None
     = Raise (ArduinoCLIException "No tokens available")
  /\ sort_line "-c -o" (Some (fun tokens => Ok (skipn 2 tokens))) None
     = Raise (ArduinoCLIException "No tokens available").
Proof.
  split; [| split].
  - apply (proj1 sort_line_identity "avr-gcc -Os 'a b'" ["avr-gcc"; "-Os"; "a b"]).
    + reflexivity.
    + discriminate.
  - apply (proj1 (proj2 sort_line_identity) "   " None). reflexivity.
  - apply (proj2 (proj2 sort_line_identity) "-c -o" _ None ["-c"; "-o"]);
      reflexivity.
Defined.

(** ** The compile recipe *)

(** With the input named before the output, the C source of the scenario
    yields the compiler, its two include paths and no other flag. *)
Lemma build_tokens_input_first :
  exists tools includes flags,
    build_tokens
      (compilation_stage
         (input_first "avr-gcc" "-Iinclude1 -Iinclude2" "special_input_file.c"))
      probe_sources
    = Ok (tools, includes, flags)
    /\ dict_get Source_eqb tools SRC_C = Some "avr-gcc"
    /\ dict_get Source_eqb includes SRC_C = Some ["include1"; "include2"]
    /\ dict_get Source_eqb flags SRC_C = Some [].
Proof.
  do 3 eexists. split; [vm_compute; reflexivity |].
  repeat split; reflexivity.
Qed.

(** Once its line is found, the line of the scenario sorts as stated. *)
Lemma sort_line_input_last :
  sort_line input_last_line
    (Some (fun items =>
             cleaned <- filter_by_flags [("-c", Const false); ("-o", Const true)]
                          items false ;;
             filter_by_filenames
               (dict_values (real_source_names probe_sources)) cleaned false))
    (Some (filter_by_flags
             [("-I", Callable (fun item => String.eqb item "-I"))]))
  = Ok ("avr-gcc", [], ["-Iinclude1"; "-Iinclude2"]).
Proof. vm_compute. reflexivity. Qed.

(** C1: on the compilation line of the end-to-end scenario, whose last
    token is the name of the C source, the pattern that locates the line
    does not match, since its bracketed set holds a space, a bar and a
    dollar sign as plain characters and the end of the line is none of
    them; [build_tokens] raises [MissingStageException] where the
    specification expects the compiler, the include paths and no other
    flag. *)
Theorem build_tokens_input_last :
  In input_last_line
     (dict_get_or Stage_eqb (compilation_stage input_last_line) COMPILATION [])
  /\ dict_get Source_eqb (real_source_names probe_sources) SRC_C
     = Some "special_input_file.c"
  /\ match_all ["special_input_file.c[ |$]"] input_last_line = Ok false
  /\ build_tokens (compilation_stage input_last_line) probe_sources
     = Raise (MissingStageException COMPILATION).
Proof.
  repeat split; try (vm_compute; reflexivity).
  vm_compute. right. left. reflexivity.
Qed.

(** C9: the include token [-I/opt/lib-Include] comes back as
    [/opt/libnclude]: every occurrence of the marker is removed, not the
    leading one alone, where the specification expects
    [/opt/lib-Include]. *)
Theorem build_tokens_include_replace :
  Py.replace "-I" "" "-I/opt/lib-Include" = "/opt/libnclude"
  /\ exists tools includes flags,
       build_tokens
         (compilation_stage
            (input_first "avr-gcc" "-I/opt/lib-Include" "special_input_file.c"))
         probe_sources
       = Ok (tools, includes, flags)
       /\ dict_get Source_eqb includes SRC_C = Some ["/opt/libnclude"].
Proof.
  split; [reflexivity |].
  do 3 eexists. split; [vm_compute; reflexivity | reflexivity].
Qed.

(** ** The link recipe *)

(** C2, as stated, fails: the link objects of the scenario are not
    [a.o] and [b.o]. *)
Lemma link_tokens_objects_counterexample :
  object_names_of link_sources = ["a.o"; "b.o"]
  /\ ~ exists link_flags,
         link_tokens link_stage link_sources
         = Ok ("avr-gcc", link_flags, ["a.o"; "b.o"],
               ["core.a"; "-lm"; "--start-group"; "--end-group"]).
Proof.
  split; [reflexivity |].
  intros [link_flags H]. vm_compute in H. discriminate H.
Qed.

(** C2, amended: for the link stage of the scenario and sources whose
    object names are [a.o] and [b.o], [link_tokens] returns the linker
    [avr-gcc], no link flags, no link objects (the cleaner removes the
    objects of the sources before the tokens are sorted) and the link
    libraries [core.a], [-lm], [--start-group], [--end-group]; and
    [post_link_lines] returns exactly the [avr-objcopy] line. *)
Theorem link_tokens_scenario :
  object_names_of link_sources = ["a.o"; "b.o"]
  /\ link_tokens link_stage link_sources
     = Ok ("avr-gcc", [], [],
           ["core.a"; "-lm"; "--start-group"; "--end-group"])
  /\ post_link_lines link_stage link_sources = Ok [objcopy_line].
Proof. repeat split; vm_compute; reflexivity. Qed.

(** ** Slicing the log into stages *)

Lemma index_absent (l : list string) (x : string) :
  ~ In x l -> Py.index l x = Raise (ValueError "").
Proof.
  induction l as [| y l IH]; intros absent; simpl; [reflexivity |].
  destruct (String.eqb_spec y x) as [-> | _].
  - contradiction absent. left. reflexivity.
  - rewrite IH; [reflexivity |]. intros H. apply absent. right. exact H.
Qed.

Lemma index_first (pre post : list string) (x : string) :
  ~ In x pre -> Py.index (pre ++ x :: post) x = Ok (length pre).
Proof.
  induction pre as [| y pre IH]; intros absent; simpl.
  - rewrite String.eqb_refl. reflexivity.
  - destruct (String.eqb_spec y x) as [-> | _].
    + contradiction absent. left. reflexivity.
    + rewrite IH; [reflexivity |]. intros H. apply absent. right. exact H.
Qed.

(** Without an end phrase, the slice runs from the line after the first
    start phrase to the line before the last one of the log. *)
Lemma lines_between_open (pre post : list string) (start_phrase : string) :
  ~ In start_phrase pre ->
  lines_between (pre ++ start_phrase :: post) start_phrase None
  = Ok (removelast post).
Proof.
  intros absent. unfold lines_between.
  rewrite (index_first pre post start_phrase absent); simpl.
  f_equal. unfold Py.slice, Py.clamp.
  rewrite length_app; simpl length.
  replace (Z.of_nat (length pre) + 1 <? 0)%Z with false
    by (symmetry; apply Z.ltb_ge; lia).
  replace (-1 <? 0)%Z with true by reflexivity.
  replace (Z.to_nat (Z.min (Z.max (Z.of_nat (length pre) + 1) 0)
                           (Z.of_nat (length pre + S (length post)))))
    with (S (length pre)) by lia.
  replace (Z.to_nat (Z.min (Z.max (-1 + Z.of_nat (length pre + S (length post))) 0)
                           (Z.of_nat (length pre + S (length post)))))
    with (length pre + length post) by lia.
  replace (length pre + length post - S (length pre)) with (length post - 1)
    by lia.
  replace (skipn (S (length pre)) (pre ++ start_phrase :: post)) with post.
  - rewrite removelast_firstn_len, Nat.sub_1_r. reflexivity.
  - change (S (length pre)) with (1 + length pre).
    rewrite <- skipn_skipn, skipn_app, skipn_all, Nat.sub_diag. reflexivity.
Qed.

(** C7: after the start phrase the log below holds two lines; without an
    end phrase [lines_between] returns the first of them only, since its
    slice stops before the last line of the log, where the specification
    expects both; and a log that ends with its link line is reported to
    have no linking line. *)
Theorem lines_between_drops_last_line :
  lines_between [link_marker; link_line; objcopy_line] link_marker None
  = Ok [link_line]
  /\ lines_between [link_marker; link_line] link_marker None = Ok []
  /\ parse_linker_commands [link_marker; link_line]
     = Raise (Exception "Failed to find linking lines").
Proof. repeat split; vm_compute; reflexivity. Qed.

(** C5, as stated, fails: on a log without the marker of the link stage
    the error is not the missing-stage error. *)
Lemma parse_linker_commands_counterexample :
  ~ In link_marker ["Compiling sketch..."; "Compiling libraries..."]
  /\ ~ exists stage,
         parse_linker_commands ["Compiling sketch..."; "Compiling libraries..."]
         = Raise (MissingStageException stage).
Proof.
  split.
  - intros [H | [H | []]]; discriminate H.
  - intros [stage H]. vm_compute in H. discriminate H.
Qed.

(** C5, amended: for every list of log lines in which the line that opens
    the link stage does not occur, [parse_linker_commands] fails with the
    [ValueError] that [list.index] raises in [lines_between], which it
    lets through; no missing-stage error is raised. *)
Theorem parse_linker_commands_missing_marker :
  forall output_lines : list string,
    ~ In link_marker output_lines ->
    lines_between output_lines link_marker None = Raise (ValueError "")
    /\ parse_linker_commands output_lines = Raise (ValueError "").
Proof.
  intros output_lines absent.
  assert (H : lines_between output_lines link_marker None
              = Raise (ValueError "")).
  { unfold lines_between. rewrite (index_absent _ _ absent). reflexivity. }
  split; [exact H |].
  unfold parse_linker_commands. fold link_marker. rewrite H. reflexivity.
Qed.

Lemma parse_linker_commands_missing_marker_witness :
  lines_between ["Compiling sketch..."; "avr-gcc -c x.c"] link_marker None
  = Raise (ValueError "")
  /\ parse_linker_commands ["Compiling sketch..."; "avr-gcc -c x.c"]
     = Raise (ValueError "").
Proof.
  apply (parse_linker_commands_missing_marker
           ["Compiling sketch..."; "avr-gcc -c x.c"]).
  intros [H | [H | []]]; discriminate H.
Defined.

(** ** The consistency check of the compile commands *)

Lemma compilation_command_Ok (compilation_lines : list string) (path : Path)
  (necessary : list string) :
  compilation_command compilation_lines path = Ok necessary ->
  exists line shell_split,
    Py.first (matching_lines_of (Pathlib.name path) compilation_lines) = Ok line
    /\ Shlex.split line = Ok shell_split
    /\ necessary = filter (compilation_filter (Pathlib.name path)) shell_split
    /\ necessary = expected_command_values shell_split.
Proof.
  unfold compilation_command. intros H.
  apply bind_Ok in H. destruct H as (line & Hline & H).
  apply bind_Ok in H. destruct H as (shell_split & Hsplit & H).
  exists line, shell_split. unfold list_eqb in H.
  destruct (list_eq_dec string_dec _ _) as [agree | _]; [| discriminate].
  injection H as <-. auto.
Qed.

Lemma compilation_loop_Ok (compilation_lines : list string)
  (items : list (string * Path)) :
  forall output_mapping out,
    compilation_loop compilation_lines items output_mapping = Ok out ->
    forall file_type path,
      In (file_type, path) items ->
      exists necessary, compilation_command compilation_lines path = Ok necessary.
Proof.
  induction items as [| [file_type0 path0] items IH];
    intros output_mapping out H file_type path Hin; [destruct Hin |].
  simpl in H. apply bind_Ok in H. destruct H as (necessary & Hone & H).
  destruct Hin as [Heq | Hin].
  - injection Heq as _ <-. exists necessary. exact Hone.
  - apply (IH _ _ H file_type path Hin).
Qed.

(** C8, as stated, fails: the commands of this log are returned, and they
    are not all but the last three tokens of the line. *)
Lemma compilation_commands_counterexample :
  parse_compilation_commands small_log small_mapping = Ok [("c", ["gcc"; "-g"])]
  /\ Shlex.split "gcc -c -g x.c -o x.c.o"
     = Ok ["gcc"; "-c"; "-g"; "x.c"; "-o"; "x.c.o"]
  /\ filter (compilation_filter "x.c") ["gcc"; "-c"; "-g"; "x.c"; "-o"; "x.c.o"]
     = ["gcc"; "-g"]
  /\ all_but_last_three ["gcc"; "-c"; "-g"; "x.c"; "-o"; "x.c.o"]
     = ["gcc"; "-c"; "-g"]
  /\ ["gcc"; "-g"] <> all_but_last_three ["gcc"; "-c"; "-g"; "x.c"; "-o"; "x.c.o"].
Proof.
  repeat split; try (vm_compute; reflexivity).
  vm_compute. discriminate.
Qed.

(** C8, amended: [parse_compilation_commands] returns normally only when,
    for every file of the mapping, the tokens that survive its filter
    (which removes [-c], [-o] and the tokens that end with the name of the
    file or of its object) are exactly the first token of the shell-split
    line followed by its tokens from the third up to, and without, the last
    three, that is, all but the second and the last three; and when the
    two derivations disagree for a file, its turn of the loop fails with an
    assertion error and returns neither. *)
Theorem compilation_commands_consistency :
  forall (output_lines : list string) (mapping : dict string Path),
    (forall out,
        parse_compilation_commands output_lines mapping = Ok out ->
        exists compilation_lines,
          lines_between output_lines "Compiling sketch..."
            (Some "Compiling libraries...") = Ok compilation_lines
          /\ forall file_type path,
               In (file_type, path) mapping ->
               exists line shell_split,
                 Py.first (matching_lines_of (Pathlib.name path)
                             compilation_lines) = Ok line
                 /\ Shlex.split line = Ok shell_split
                 /\ filter (compilation_filter (Pathlib.name path)) shell_split
                    = Py.slice shell_split 0 1 ++ Py.slice shell_split 2 (-3))
    /\ (forall compilation_lines path line shell_split,
           Py.first (matching_lines_of (Pathlib.name path) compilation_lines)
           = Ok line ->
           Shlex.split line = Ok shell_split ->
           filter (compilation_filter (Pathlib.name path)) shell_split
           <> Py.slice shell_split 0 1 ++ Py.slice shell_split 2 (-3) ->
           compilation_command compilation_lines path
           = Raise (AssertionError
                      "Necessary arguments are usually all but the last 3")).
Proof.
  intros output_lines mapping. split.
  - intros out H. unfold parse_compilation_commands in H.
    apply bind_Ok in H. destruct H as (compilation_lines & Hlines & H).
    exists compilation_lines. split; [exact Hlines |].
    intros file_type path Hin.
    destruct (compilation_loop_Ok _ _ _ H file_type path Hin)
      as (necessary & Hone).
    destruct (compilation_command_Ok _ _ Hone)
      as (line & shell_split & Hline & Hsplit & Hnec & Hexp).
    exists line, shell_split. repeat split; try assumption.
    rewrite <- Hnec. exact Hexp.
  - intros compilation_lines path line shell_split Hline Hsplit disagree.
    unfold compilation_command. rewrite Hline; simpl. rewrite Hsplit; simpl.
    unfold list_eqb.
    destruct (list_eq_dec string_dec _ _) as [agree | _]; [| reflexivity].
    contradiction disagree.
Qed.

Lemma compilation_commands_consistency_witness :
  (exists compilation_lines,
      lines_between small_log "Compiling sketch..."
        (Some "Compiling libraries...") = Ok compilation_lines
      /\ forall file_type path,
           In (file_type, path) small_mapping ->
           exists line shell_split,
             Py.first (matching_lines_of (Pathlib.name path)
                         compilation_lines) = Ok line
             /\ Shlex.split line = Ok shell_split
             /\ filter (compilation_filter (Pathlib.name path)) shell_split
                = Py.slice shell_split 0 1 ++ Py.slice shell_split 2 (-3))
  /\ compilation_command ["gcc -g -c x.c -o x.c.o"] (Pathlib.make "/tmp/x.c")
     = Raise (AssertionError
                "Necessary arguments are usually all but the last 3").
Proof.
  split.
  - apply (proj1 (compilation_commands_consistency small_log small_mapping)
             [("c", ["gcc"; "-g"])]).
    reflexivity.
  - apply (proj2 (compilation_commands_consistency small_log small_mapping)
             ["gcc -g -c x.c -o x.c.o"] (Pathlib.make "/tmp/x.c")
             "gcc -g -c x.c -o x.c.o"
             ["gcc"; "-g"; "-c"; "x.c"; "-o"; "x.c.o"]).
    + reflexivity.
    + reflexivity.
    + vm_compute. discriminate.
Defined.


(** * Further properties of the code *)

(** ** Slices of the log *)

Lemma index_present (l : list string) (x : string) :
  In x l -> exists i, Py.index l x = Ok i.
Proof.
  induction l as [| y l IH]; intros Hin; [destruct Hin |].
  simpl. destruct (String.eqb_spec y x) as [-> | Hne]; [eauto |].
  destruct Hin as [-> | Hin]; [contradiction Hne; reflexivity |].
  destruct (IH Hin) as [i ->]. simpl. eauto.
Qed.

Lemma slice_middle {A} (a b c : list A) :
  Py.slice (a ++ b ++ c) (Z.of_nat (length a)) (Z.of_nat (length a + length b))
  = b.
Proof.
  unfold Py.slice, Py.clamp. rewrite !length_app.
  replace (Z.of_nat (length a) <? 0)%Z with false
    by (symmetry; apply Z.ltb_ge; lia).
  replace (Z.of_nat (length a + length b) <? 0)%Z with false
    by (symmetry; apply Z.ltb_ge; lia).
  replace (Z.to_nat (Z.min (Z.max (Z.of_nat (length a)) 0)
                           (Z.of_nat (length a + (length b + length c)))))
    with (length a) by lia.
  replace (Z.to_nat (Z.min (Z.max (Z.of_nat (length a + length b)) 0)
                           (Z.of_nat (length a + (length b + length c)))))
    with (length a + length b) by lia.
  replace (length a + length b - length a) with (length b) by lia.
  rewrite skipn_app, skipn_all, Nat.sub_diag; simpl.
  rewrite firstn_app, firstn_all, Nat.sub_diag; simpl.
  apply app_nil_r.
Qed.

Lemma slice_backwards {A} (l : list A) (start stop : nat) :
  stop <= start -> Py.slice l (Z.of_nat start) (Z.of_nat stop) = [].
Proof.
  intros H. unfold Py.slice, Py.clamp.
  replace (Z.of_nat start <? 0)%Z with false by (symmetry; apply Z.ltb_ge; lia).
  replace (Z.of_nat stop <? 0)%Z with false by (symmetry; apply Z.ltb_ge; lia).
  match goal with |- firstn ?n _ = _ => replace n with 0 by lia end.
  reflexivity.
Qed.

(** X1: when the start phrase and, after it, the end phrase occur in the
    log, and neither occurs earlier, [lines_between] returns exactly the
    lines between the two, without the phrases themselves. *)
Theorem lines_between_closed :
  forall (pre mid post : list string) (start_phrase end_phrase : string),
    ~ In start_phrase pre ->
    ~ In end_phrase pre ->
    end_phrase <> start_phrase ->
    ~ In end_phrase mid ->
    lines_between (pre ++ start_phrase :: mid ++ end_phrase :: post)
      start_phrase (Some end_phrase)
    = Ok mid.
Proof.
  intros pre mid post start_phrase end_phrase Hs He Hne Hm.
  unfold lines_between.
  rewrite (index_first pre _ start_phrase Hs); simpl.
  replace (pre ++ start_phrase :: mid ++ end_phrase :: post)
    with ((pre ++ start_phrase :: mid) ++ end_phrase :: post)
    by (rewrite <- app_assoc; reflexivity).
  rewrite (index_first (pre ++ start_phrase :: mid) post end_phrase); simpl.
  - f_equal.
    replace ((pre ++ start_phrase :: mid) ++ end_phrase :: post)
      with ((pre ++ [start_phrase]) ++ mid ++ end_phrase :: post)
      by (rewrite <- !app_assoc; reflexivity).
    replace (Z.of_nat (length pre) + 1)%Z
      with (Z.of_nat (length (pre ++ [start_phrase])))
      by (rewrite length_app; simpl; lia).
    replace (length (pre ++ start_phrase :: mid))
      with (length (pre ++ [start_phrase]) + length mid)
      by (rewrite !length_app; simpl; lia).
    apply slice_middle.
  - intros Hin. apply in_app_or in Hin.
    destruct Hin as [Hin | [Heq | Hin]]; auto.
Qed.

Lemma lines_between_closed_witness :
  lines_between
    (["Using board"] ++ "Compiling sketch..." :: ["avr-gcc -c a.c"; "avr-gcc -c b.c"]
       ++ "Compiling libraries..." :: ["Compiling core..."])
    "Compiling sketch..." (Some "Compiling libraries...")
  = Ok ["avr-gcc -c a.c"; "avr-gcc -c b.c"].
Proof.
  apply lines_between_closed.
  - intros [H | []]; discriminate H.
  - intros [H | []]; discriminate H.
  - discriminate.
  - intros [H | [H | []]]; discriminate H.
Defined.

(** X2: [lines_between] raises [ValueError] when the start phrase is not a
    line of the log, whatever the end phrase, and when the start phrase is
    there but the end phrase is not. *)
Theorem lines_between_missing_phrase :
  forall (output_lines : list string) (start_phrase end_phrase : string),
    (~ In start_phrase output_lines ->
     forall stop, lines_between output_lines start_phrase stop
                  = Raise (ValueError ""))
    /\ (In start_phrase output_lines ->
        ~ In end_phrase output_lines ->
        lines_between output_lines start_phrase (Some end_phrase)
        = Raise (ValueError "")).
Proof.
  intros output_lines start_phrase end_phrase. split.
  - intros absent stop. unfold lines_between.
    rewrite (index_absent _ _ absent). reflexivity.
  - intros present absent. unfold lines_between.
    destruct (index_present _ _ present) as [i ->]; simpl.
    rewrite (index_absent _ _ absent). reflexivity.
Qed.

Lemma lines_between_missing_phrase_witness :
  lines_between ["Compiling sketch..."; "avr-gcc -c a.c"] "Compiling core..."
    (Some "Compiling sketch...")
  = Raise (ValueError "")
  /\ lines_between ["Compiling sketch..."; "avr-gcc -c a.c"] "Compiling sketch..."
       (Some "Compiling libraries...")
     = Raise (ValueError "").
Proof.
  split.
  - apply (proj1 (lines_between_missing_phrase
                    ["Compiling sketch..."; "avr-gcc -c a.c"]
                    "Compiling core..." "")).
    intros [H | [H | []]]; discriminate H.
  - apply (proj2 (lines_between_missing_phrase
                    ["Compiling sketch..."; "avr-gcc -c a.c"]
                    "Compiling sketch..." "Compiling libraries...")).
    + left. reflexivity.
    + intros [H | [H | []]]; discriminate H.
Defined.

(** X3: when the first end phrase of the log comes before its first start
    phrase, [lines_between] raises nothing and returns the empty list. *)
Theorem lines_between_end_first :
  forall (pre mid post : list string) (start_phrase end_phrase : string),
    ~ In end_phrase pre ->
    ~ In start_phrase (pre ++ end_phrase :: mid) ->
    lines_between (pre ++ end_phrase :: mid ++ start_phrase :: post)
      start_phrase (Some end_phrase)
    = Ok [].
Proof.
  intros pre mid post start_phrase end_phrase He Hs.
  unfold lines_between.
  rewrite (index_first pre _ end_phrase He).
  replace (pre ++ end_phrase :: mid ++ start_phrase :: post)
    with ((pre ++ end_phrase :: mid) ++ start_phrase :: post)
    by (rewrite <- app_assoc; reflexivity).
  rewrite (index_first _ post start_phrase Hs); simpl.
  f_equal.
  replace (Z.of_nat (length (pre ++ end_phrase :: mid)) + 1)%Z
    with (Z.of_nat (S (length (pre ++ end_phrase :: mid)))) by lia.
  apply slice_backwards. rewrite length_app. simpl. lia.
Qed.

Lemma lines_between_end_first_witness :
  lines_between
    ([] ++ "Compiling libraries..." :: ["avr-gcc -c lib.c"]
        ++ "Compiling sketch..." :: ["avr-gcc -c a.c"])
    "Compiling sketch..." (Some "Compiling libraries...")
  = Ok [].
Proof.
  apply lines_between_end_first.
  - intros [].
  - intros [H | [H | []]]; discriminate H.
Defined.

(** X4: without an end phrase, [lines_between] returns the lines after the
    first start phrase except the last line of the log. *)
Theorem lines_between_without_end :
  forall (pre post : list string) (start_phrase : string),
    ~ In start_phrase pre ->
    lines_between (pre ++ start_phrase :: post) start_phrase None
    = Ok (removelast post).
Proof.
  intros pre post start_phrase absent.
  apply lines_between_open. exact absent.
Qed.

Lemma lines_between_without_end_witness :
  lines_between (["Using board"] ++ link_marker :: [link_line; objcopy_line; ""])
    link_marker None
  = Ok [link_line; objcopy_line].
Proof.
  apply (lines_between_without_end ["Using board"]
           [link_line; objcopy_line; ""] link_marker).
  intros [H | []]; discriminate H.
Defined.

(** ** What a comprehension with a condition returns *)

Lemma filterM_nil_inv {A} (keep : A -> result bool) (l : list A) :
  filterM keep l = Ok [] -> forall y, In y l -> keep y = Ok false.
Proof.
  induction l as [| x l IH]; intros H y Hy; [destruct Hy |].
  simpl in H. apply bind_Ok in H. destruct H as (b & Hb & H).
  apply bind_Ok in H. destruct H as (xs & Hxs & H).
  destruct b; [discriminate |]. injection H as ->.
  destruct Hy as [<- | Hy]; [exact Hb | apply (IH Hxs y Hy)].
Qed.

Lemma filterM_cons_inv {A} (keep : A -> result bool) (l : list A) (x : A)
  (r : list A) :
  filterM keep l = Ok (x :: r) ->
  exists pre post,
    l = pre ++ x :: post
    /\ (forall y, In y pre -> keep y = Ok false)
    /\ keep x = Ok true
    /\ filterM keep post = Ok r.
Proof.
  induction l as [| z l IH]; intros H; [discriminate |].
  simpl in H. apply bind_Ok in H. destruct H as (b & Hb & H).
  apply bind_Ok in H. destruct H as (xs & Hxs & H).
  destruct b.
  - injection H as -> ->. exists [], l. repeat split; auto.
    intros y [].
  - injection H as ->. destruct (IH Hxs) as (pre & post & -> & Hpre & Hx & Hpost).
    exists (z :: pre), post. repeat split; auto.
    intros y [<- | Hy]; auto.
Qed.

Lemma filterM_In {A} (keep : A -> result bool) (l r : list A) :
  filterM keep l = Ok r ->
  forall x, In x r -> In x l /\ keep x = Ok true.
Proof.
  revert l. induction r as [| y r IH]; intros l H x Hx; [destruct Hx |].
  destruct (filterM_cons_inv _ _ H) as (pre & post & -> & _ & Hy & Hpost).
  destruct Hx as [<- | Hx].
  - split; [apply in_or_app; right; left; reflexivity | exact Hy].
  - destruct (IH post Hpost x Hx) as [Hin Hk].
    split; [apply in_or_app; right; right; exact Hin | exact Hk].
Qed.

Lemma filterM_subseq {A} (keep : A -> result bool) (l r : list A) :
  filterM keep l = Ok r -> subseq r l.
Proof.
  revert r. induction l as [| x l IH]; intros r H; simpl in H.
  - injection H as <-. constructor.
  - apply bind_Ok in H. destruct H as (b & Hb & H).
    apply bind_Ok in H. destruct H as (xs & Hxs & H).
    injection H as <-.
    destruct b; [apply subseq_take | apply subseq_skip]; apply IH, Hxs.
Qed.

(** ** What [identify_line] returns *)

(** X5: whenever [identify_line] returns a line, that line is a line of
    the stage that satisfies the predicate and no line before it does;
    with [single] set, no line after it does either. *)
Theorem identify_line_returns :
  forall (stage : Stage) (stages : dict Stage (list string))
         (match_ : string -> result bool) (single : bool) (line : string),
    identify_line stage stages match_ single = Ok line ->
    exists pre post,
      dict_get_or Stage_eqb stages stage [] = pre ++ line :: post
      /\ (forall x, In x pre -> match_ x = Ok false)
      /\ match_ line = Ok true
      /\ (single = true -> forall x, In x post -> match_ x = Ok false).
Proof.
  intros stage stages match_ single line H.
  unfold identify_line in H.
  apply bind_Ok in H. destruct H as (matching & Hm & H).
  destruct matching as [| first others]; [discriminate |].
  destruct (filterM_cons_inv _ _ Hm) as (pre & post & Hl & Hpre & Hx & Hpost).
  destruct single; simpl in H.
  - destruct others as [| other others]; simpl in H; [| discriminate].
    injection H as <-. exists pre, post. repeat split; auto.
    intros _. apply (filterM_nil_inv _ _ Hpost).
  - injection H as <-. exists pre, post. repeat split; auto.
    discriminate.
Qed.

Lemma identify_line_returns_witness :
  exists pre post,
    dict_get_or Stage_eqb two_builds CORE [] = pre ++ "echo done" :: post
    /\ (forall x, In x pre -> Ok (String.eqb x "echo done") = Ok false)
    /\ Ok (String.eqb "echo done" "echo done") = Ok true
    /\ (true = true ->
        forall x, In x post -> Ok (String.eqb x "echo done") = Ok false).
Proof.
  apply (@identify_line_returns CORE two_builds
           (fun line => Ok (String.eqb line "echo done")) true "echo done").
  reflexivity.
Defined.

(** ** Pattern lists *)

Section MatchLists.
Context {RE : RegexEngine}.

Lemma mapM_app {A B} (f : A -> result B) (l1 l2 : list A) :
  mapM f (l1 ++ l2)
  = (r1 <- mapM f l1 ;; r2 <- mapM f l2 ;; Ok (r1 ++ r2)).
Proof.
  induction l1 as [| x l1 IH]; simpl.
  - destruct (mapM f l2); reflexivity.
  - destruct (f x); simpl; [| reflexivity].
    rewrite IH. destruct (mapM f l1); simpl; [| reflexivity].
    destruct (mapM f l2); reflexivity.
Qed.

Lemma mapM_raises {A B} (f : A -> result B) (l : list A) (x : A) (e : exn) :
  In x l -> f x = Raise e -> exists e', mapM f l = Raise e'.
Proof.
  induction l as [| y l IH]; intros Hin Hx; [destruct Hin |].
  simpl. destruct Hin as [-> | Hin].
  - rewrite Hx. simpl. eauto.
  - destruct (f y); simpl; [| eauto].
    destruct (IH Hin Hx) as [e' ->]. simpl. eauto.
Qed.

(** X6: the patterns are all compiled before any is tried: one pattern
    that does not compile makes [match_any] and [match_all] raise for every
    item, even when another pattern of the list matches it.  When they
    compile, [match_any] of two lists put together is the disjunction and
    [match_all] the conjunction of the two results; the empty list matches
    nothing for [match_any] and everything for [match_all]. *)
Theorem match_lists :
  (forall (matches : list string) (pattern : string) (e : exn),
      In pattern matches ->
      re_compile pattern = Raise e ->
      exists e', forall item,
        match_any matches item = Raise e' /\ match_all matches item = Raise e')
  /\ (forall (a b : list string) (item : string) (x y : bool),
         match_any a item = Ok x -> match_any b item = Ok y ->
         match_any (a ++ b) item = Ok (x || y))
  /\ (forall (a b : list string) (item : string) (x y : bool),
         match_all a item = Ok x -> match_all b item = Ok y ->
         match_all (a ++ b) item = Ok (x && y))
  /\ (forall item, match_any [] item = Ok false /\ match_all [] item = Ok true).
Proof.
  repeat split.
  - intros matches pattern e Hin Hp.
    destruct (mapM_raises re_compile matches pattern Hin Hp) as [e' He'].
    exists e'. intros item. unfold match_any, match_all. rewrite He'. auto.
  - intros a b item x y. unfold match_any. rewrite mapM_app.
    destruct (mapM re_compile a) as [ra | ]; simpl; [| discriminate].
    destruct (mapM re_compile b) as [rb | ]; simpl; [| discriminate].
    intros Hx Hy. injection Hx as <-. injection Hy as <-.
    rewrite existsb_app. reflexivity.
  - intros a b item x y. unfold match_all. rewrite mapM_app.
    destruct (mapM re_compile a) as [ra | ]; simpl; [| discriminate].
    destruct (mapM re_compile b) as [rb | ]; simpl; [| discriminate].
    intros Hx Hy. injection Hx as <-. injection Hy as <-.
    rewrite forallb_app. reflexivity.
Qed.

End MatchLists.

Lemma match_lists_witness :
  (exists e', forall item,
      match_any ["core\.a"; "a(b"] item = Raise e'
      /\ match_all ["core\.a"; "a(b"] item = Raise e')
  /\ match_any (["\.o$"] ++ ["^-l"]) "-lm" = Ok (false || true)
  /\ match_all (["\.o$"] ++ ["^-l"]) "-lm" = Ok (false && true).
Proof.
  split; [| split].
  - apply (proj1 match_lists ["core\.a"; "a(b"] "a(b" (ReError "a(b")).
    + right. left. reflexivity.
    + reflexivity.
  - apply (proj1 (proj2 match_lists)); reflexivity.
  - apply (proj1 (proj2 (proj2 match_lists))); reflexivity.
Defined.

(** ** More of the filter algebra *)

Section FilterLaws.
Context {RE : RegexEngine}.

(** With patterns that compile, [filter_by_filenames] is a plain filter. *)
Lemma filter_by_filenames_compiled (filenames : list string)
  (matchers : list Pattern) (t : list string) (negate : bool) :
  mapM re_compile filenames = Ok matchers ->
  filter_by_filenames filenames t negate
  = Ok (filter (fun x =>
                  Bool.eqb (existsb (fun m => re_search m x) matchers) negate)
               t).
Proof.
  intros compiled. unfold filter_by_filenames; cbv zeta.
  apply filterM_pure. intros x _. unfold match_any. rewrite compiled. simpl.
  destruct negate, (existsb _ matchers); reflexivity.
Qed.

(** A run on a non-empty list shows that the patterns compile. *)
Lemma filter_by_filenames_compiles (filenames : list string) (x : string)
  (t kept : list string) (negate : bool) :
  filter_by_filenames filenames (x :: t) negate = Ok kept ->
  exists matchers, mapM re_compile filenames = Ok matchers.
Proof.
  unfold filter_by_filenames; cbv zeta. simpl. unfold match_any at 1.
  destruct (mapM re_compile filenames) as [matchers | e]; [eauto |].
  discriminate.
Qed.

(** X7: what [filter_by_filenames] keeps is settled token by token: every
    kept token matches one of the patterns exactly when [negate] is set,
    the kept tokens are a subsequence of the input, filtering them again
    the same way changes nothing, and filtering them the other way leaves
    nothing. *)
Theorem filter_by_filenames_stable :
  forall (filenames t kept : list string) (negate : bool),
    filter_by_filenames filenames t negate = Ok kept ->
    subseq kept t
    /\ (forall x, In x kept -> match_any filenames x = Ok negate)
    /\ filter_by_filenames filenames kept negate = Ok kept
    /\ filter_by_filenames filenames kept (negb negate) = Ok [].
Proof.
  intros filenames t kept negate H.
  split; [apply (filterM_subseq _ _ H) |].
  destruct t as [| x0 t].
  { injection H as <-. repeat split; try reflexivity. intros x []. }
  destruct (@filter_by_filenames_compiles _ _ _ _ _ H) as [matchers compiled].
  remember (x0 :: t) as l eqn:El. clear El.
  rewrite (@filter_by_filenames_compiled _ _ _ _ compiled) in H.
  injection H as <-.
  rewrite !(fun t n => @filter_by_filenames_compiled _ _ t n compiled).
  set (p := fun x => Bool.eqb (existsb (fun m => re_search m x) matchers) negate).
  repeat split.
  - intros x Hx. apply filter_In in Hx. destruct Hx as [_ Hx].
    unfold match_any. rewrite compiled. simpl. f_equal.
    apply Bool.eqb_prop. exact Hx.
  - f_equal. apply forallb_filter_id. apply forallb_forall.
    intros x Hx. apply filter_In in Hx. apply Hx.
  - f_equal. apply filter_none. intros x Hx.
    apply filter_In in Hx. destruct Hx as [_ Hx]. unfold p in Hx.
    apply Bool.eqb_prop in Hx. rewrite Hx. destruct negate; reflexivity.
Qed.

(** X8: removing by two lists of patterns at once is removing by the
    first list and then by the second. *)
Theorem filter_by_filenames_app :
  forall (a b t kept : list string),
    filter_by_filenames (a ++ b) t false = Ok kept ->
    exists between,
      filter_by_filenames a t false = Ok between
      /\ filter_by_filenames b between false = Ok kept.
Proof.
  intros a b t kept H. destruct t as [| x0 t].
  { injection H as <-. exists []. split; reflexivity. }
  destruct (@filter_by_filenames_compiles _ _ _ _ _ H) as [matchers compiled].
  rewrite mapM_app in compiled.
  apply bind_Ok in compiled. destruct compiled as (ma & Ha & compiled).
  apply bind_Ok in compiled. destruct compiled as (mb & Hb & compiled).
  injection compiled as <-.
  assert (Hab : mapM re_compile (a ++ b) = Ok (ma ++ mb))
    by (rewrite mapM_app, Ha, Hb; reflexivity).
  remember (x0 :: t) as l eqn:El. clear El.
  rewrite (@filter_by_filenames_compiled _ _ _ _ Hab) in H.
  injection H as <-.
  eexists. split; [apply (@filter_by_filenames_compiled _ _ _ _ Ha) |].
  rewrite (@filter_by_filenames_compiled _ _ _ _ Hb). f_equal.
  induction l as [| x l IH]; [reflexivity |].
  simpl. rewrite existsb_app.
  destruct (existsb (fun m => re_search m x) ma); simpl; [exact IH |].
  destruct (existsb (fun m => re_search m x) mb); simpl; [exact IH |].
  f_equal. exact IH.
Qed.

End FilterLaws.

Lemma filter_by_filenames_stable_witness :
  subseq ["a.o"; "b.o"] ["a.o"; "-lm"; "b.o"; "core.a"]
  /\ (forall x, In x ["a.o"; "b.o"] -> match_any ["\.o$"] x = Ok true)
  /\ filter_by_filenames ["\.o$"] ["a.o"; "b.o"] true = Ok ["a.o"; "b.o"]
  /\ filter_by_filenames ["\.o$"] ["a.o"; "b.o"] (negb true) = Ok [].
Proof.
  apply (@filter_by_filenames_stable python_re ["\.o$"]
           ["a.o"; "-lm"; "b.o"; "core.a"] ["a.o"; "b.o"] true).
  reflexivity.
Defined.

Lemma filter_by_filenames_app_witness :
  exists between,
    filter_by_filenames ["\.o$"] ["a.o"; "-lm"; "core.a"; "-Os"] false
    = Ok between
    /\ filter_by_filenames ["\.a$"; "^-l"] between false = Ok ["-Os"].
Proof.
  apply (@filter_by_filenames_app python_re ["\.o$"] ["\.a$"; "^-l"]
           ["a.o"; "-lm"; "core.a"; "-Os"] ["-Os"]).
  reflexivity.
Defined.

(** ** [filter_by_flags] as a scan *)

Section FlagScan.
Context {RE : RegexEngine}.
Variable flags : dict string Check.

(** The token that [tokens[max(0, index - 1)]] names at the index after
    [pre]. *)
Definition previous_of (pre rest : list string) : string :=
  match pre with
  | [] => hd "" rest
  | _ => last pre ""
  end.

Lemma nth_previous (pre : list string) (x : string) (rest : list string) :
  nth (Nat.max 0 (length pre - 1)) (pre ++ x :: rest) ""
  = previous_of pre (x :: rest).
Proof.
  destruct pre as [| y pre]; [reflexivity |].
  unfold previous_of. rewrite Nat.max_0_l.
  replace (length (y :: pre) - 1) with (length pre) by (simpl; lia).
  generalize y. induction pre as [| z pre IH]; intros y0; [reflexivity |].
  simpl in *. apply IH.
Qed.

Lemma previous_of_snoc (pre : list string) (x : string) (rest : list string) :
  previous_of (pre ++ [x]) rest = x.
Proof.
  unfold previous_of. destruct (pre ++ [x]) as [| y l] eqn:E.
  - destruct pre; discriminate E.
  - rewrite <- E. apply last_last.
Qed.

Lemma scan_flags_indexed (negate : bool) (tokens pre rest : list string) :
  tokens = pre ++ rest ->
  (kept <- filterM
             (fun '(index, token) =>
                drop <- (value <- flag_value flags token
                                    (nth (Nat.max 0 (index - 1)) tokens "") ;;
                         Ok (if negate then negb value else value)) ;;
                Ok (negb drop))
             (combine (seq (length pre) (length rest)) rest) ;;
   Ok (map snd kept))
  = scan_flags flags negate (previous_of pre rest) rest.
Proof.
  revert pre. induction rest as [| x rest IH]; intros pre shape; [reflexivity |].
  cbn [length seq combine filterM scan_flags].
  rewrite shape at 1. rewrite nth_previous.
  destruct (flag_value flags x (previous_of pre (x :: rest))) as [value | e];
    [| reflexivity].
  cbn [bind].
  specialize (IH (pre ++ [x])).
  rewrite length_app, Nat.add_1_r in IH.
  rewrite previous_of_snoc in IH.
  rewrite <- IH by (rewrite <- app_assoc; exact shape).
  destruct (filterM _ (combine (seq (S (length pre)) (length rest)) rest))
    as [xs | e]; [| reflexivity].
  cbn [bind]. destruct negate, value; reflexivity.
Qed.

(** X9: [filter_by_flags] is one scan of the tokens from left to right in
    which every token is judged together with the token before it, the
    first token together with itself. *)
Theorem filter_by_flags_scan :
  forall (tokens : list string) (negate : bool),
    filter_by_flags flags tokens negate
    = scan_flags flags negate (hd "" tokens) tokens.
Proof.
  intros tokens negate. unfold filter_by_flags, enumerate; cbv zeta.
  apply (@scan_flags_indexed negate tokens [] tokens eq_refl).
Qed.

(** A token that is no flag of the table is no flag of a part of it. *)
Lemma match_any_selected (sel : string * Check -> bool) (item : string) :
  match_any (dict_keys flags) item = Ok false ->
  match_any (map fst (filter sel flags)) item = Ok false.
Proof.
  unfold match_any, dict_keys.
  induction flags as [| [flag check] fl IH]; intros H; [exact H |].
  simpl in H. destruct (re_compile flag) as [m | e] eqn:Em; [| discriminate].
  simpl in H.
  destruct (mapM re_compile (map fst fl)) as [ms | e] eqn:Ems; [| discriminate].
  simpl in H. injection H as H. apply orb_false_elim in H. destruct H as [Hm Hms].
  specialize (IH ltac:(simpl; f_equal; exact Hms)).
  simpl. destruct (sel (flag, check)); [| exact IH].
  simpl. rewrite Em. simpl.
  destruct (mapM re_compile (map fst (filter sel fl))) as [ms' | e];
    [| discriminate].
  simpl in *. injection IH as IH. rewrite Hm, IH. reflexivity.
Qed.

Lemma flag_value_plain (token previous : string) :
  match_any (dict_keys flags) (Py.str_take 2 token) = Ok false ->
  match_any (dict_keys flags) (Py.str_take 2 previous) = Ok false ->
  flag_value flags token previous = Ok false.
Proof.
  intros Ht Hp. unfold flag_value. rewrite Ht. simpl.
  apply match_any_selected. exact Hp.
Qed.

Lemma scan_flags_kept (previous : string) (tokens kept : list string) :
  scan_flags flags false previous tokens = Ok kept ->
  subseq kept tokens
  /\ forall x, In x kept ->
       match_any (dict_keys flags) (Py.str_take 2 x) = Ok false.
Proof.
  revert previous kept. induction tokens as [| token rest IH];
    intros previous kept H; simpl in H.
  - injection H as <-. split; [constructor | intros x []].
  - apply bind_Ok in H. destruct H as (value & Hv & H).
    apply bind_Ok in H. destruct H as (kept' & Hk & H).
    injection H as <-. destruct (IH _ _ Hk) as [Hsub Hall].
    destruct value; [split; [apply subseq_skip, Hsub | exact Hall] |].
    split; [apply subseq_take, Hsub |].
    intros x [<- | Hx]; [| apply Hall, Hx].
    unfold flag_value in Hv.
    destruct (match_any (dict_keys flags) (Py.str_take 2 token)) as [[|] | e];
      simpl in Hv; [discriminate | reflexivity | discriminate].
Qed.

Lemma scan_flags_plain (negate : bool) (previous : string) (tokens : list string) :
  match_any (dict_keys flags) (Py.str_take 2 previous) = Ok false ->
  (forall x, In x tokens ->
             match_any (dict_keys flags) (Py.str_take 2 x) = Ok false) ->
  scan_flags flags negate previous tokens
  = Ok (if negate then [] else tokens).
Proof.
  revert previous. induction tokens as [| token rest IH];
    intros previous Hp Hall; simpl.
  - destruct negate; reflexivity.
  - rewrite (flag_value_plain _ _ (Hall token (or_introl eq_refl)) Hp). simpl.
    rewrite IH; [| apply Hall; left; reflexivity
                 | intros x Hx; apply Hall; right; exact Hx].
    destruct negate; reflexivity.
Qed.

(** X10: no token that [filter_by_flags] keeps is a flag of the table (its
    first two characters match none of the keys); so filtering the kept
    tokens again changes nothing, and asking for the flags among them gives
    none. *)
Theorem filter_by_flags_stable :
  forall (tokens kept : list string),
    filter_by_flags flags tokens false = Ok kept ->
    subseq kept tokens
    /\ (forall x, In x kept ->
          match_any (dict_keys flags) (Py.str_take 2 x) = Ok false)
    /\ filter_by_flags flags kept false = Ok kept
    /\ filter_by_flags flags kept true = Ok [].
Proof.
  intros tokens kept H. rewrite filter_by_flags_scan in H.
  destruct (scan_flags_kept _ _ H) as [Hsub Hall].
  split; [exact Hsub |]. split; [exact Hall |].
  rewrite !filter_by_flags_scan.
  destruct kept as [| x kept]; [split; reflexivity |].
  split.
  - apply (scan_flags_plain false); [apply Hall; left; reflexivity | exact Hall].
  - apply (scan_flags_plain true); [apply Hall; left; reflexivity | exact Hall].
Qed.

End FlagScan.

Lemma filter_by_flags_stable_witness :
  subseq ["avr-gcc"; "-Os"; "x.c"] ["avr-gcc"; "-c"; "-Os"; "-o"; "x.o"; "x.c"]
  /\ (forall x, In x ["avr-gcc"; "-Os"; "x.c"] ->
        match_any (dict_keys [("-c", Const false); ("-o", Const true)])
          (Py.str_take 2 x) = Ok false)
  /\ filter_by_flags [("-c", Const false); ("-o", Const true)]
       ["avr-gcc"; "-Os"; "x.c"] false = Ok ["avr-gcc"; "-Os"; "x.c"]
  /\ filter_by_flags [("-c", Const false); ("-o", Const true)]
       ["avr-gcc"; "-Os"; "x.c"] true = Ok [].
Proof.
  apply (@filter_by_flags_stable python_re
           [("-c", Const false); ("-o", Const true)]
           ["avr-gcc"; "-c"; "-Os"; "-o"; "x.o"; "x.c"]
           ["avr-gcc"; "-Os"; "x.c"]).
  reflexivity.
Defined.

(** ** The extractors and their stages *)

Lemma slice_from_after {A} (pre : list A) (x : A) (post : list A) :
  Py.slice_from (pre ++ x :: post) (Z.of_nat (length pre) + 1) = post.
Proof.
  unfold Py.slice_from, Py.clamp. rewrite length_app. simpl length.
  replace (Z.of_nat (length pre) + 1 <? 0)%Z with false
    by (symmetry; apply Z.ltb_ge; lia).
  replace (Z.to_nat (Z.min (Z.max (Z.of_nat (length pre) + 1) 0)
                           (Z.of_nat (length pre + S (length post)))))
    with (1 + length pre) by lia.
  rewrite <- skipn_skipn, skipn_app, skipn_all, Nat.sub_diag. reflexivity.
Qed.

Section Extractors.
Context {RE : RegexEngine}.

(** X11: an extractor whose stage is absent from the stages map, or has
    no lines, raises [MissingStageException] of that stage, whatever the
    sources are: [build_tokens] for COMPILATION, [link_tokens] and
    [post_link_lines] for LINK, [archive_tokens] and [sketch_cache] for
    CORE. *)
Theorem extractors_missing_stage :
  forall (stages : dict Stage (list string)) (sources : dict Source Path),
    (dict_get_or Stage_eqb stages COMPILATION [] = [] ->
     build_tokens stages sources = Raise (MissingStageException COMPILATION))
    /\ (dict_get_or Stage_eqb stages LINK [] = [] ->
        link_tokens stages sources = Raise (MissingStageException LINK)
        /\ post_link_lines stages sources = Raise (MissingStageException LINK))
    /\ (dict_get_or Stage_eqb stages CORE [] = [] ->
        archive_tokens stages = Raise (MissingStageException CORE)
        /\ sketch_cache stages = Raise (MissingStageException CORE)).
Proof.
  intros stages sources. repeat split.
  - intros H. unfold build_tokens, all_sources. cbn [mapM].
    unfold identify_line. rewrite H. reflexivity.
  - unfold link_tokens, identify_link_line, identify_line.
    rewrite H. reflexivity.
  - unfold post_link_lines, identify_link_line, identify_line.
    rewrite H. reflexivity.
  - unfold archive_tokens, identify_archive_line, identify_line.
    rewrite H. reflexivity.
  - unfold sketch_cache. unfold dict_get_or in H.
    destruct (dict_get Stage_eqb stages CORE) as [lines |]; [| reflexivity].
    subst lines. reflexivity.
Qed.

(** X12: [post_link_lines] and [link_tokens] stand on the same link line:
    when [identify_link_line] returns it, the line occurs in the LINK
    stage and [post_link_lines] returns every line of the stage after its
    first occurrence; when [identify_link_line] raises, both raise the
    same exception. *)
Theorem post_link_lines_after_link_line :
  forall (stages : dict Stage (list string)) (sources : dict Source Path),
    match identify_link_line stages (object_names_of sources) with
    | Ok line =>
        exists pre post,
          dict_get_or Stage_eqb stages LINK [] = pre ++ line :: post
          /\ ~ In line pre
          /\ post_link_lines stages sources = Ok post
    | Raise e =>
        post_link_lines stages sources = Raise e
        /\ link_tokens stages sources = Raise e
    end.
Proof.
  intros stages sources.
  destruct (identify_link_line stages (object_names_of sources))
    as [line | e] eqn:E.
  - destruct (@identify_line_returns _ _ _ _ _ E)
      as (pre & post & shape & before & here & _).
    assert (fresh : ~ In line pre).
    { intros Hin. rewrite (before line Hin) in here. discriminate. }
    exists pre, post. repeat split; try assumption.
    unfold post_link_lines. rewrite E. cbn [bind]. rewrite shape.
    rewrite (index_first pre post line fresh). cbn [bind].
    rewrite slice_from_after. reflexivity.
  - unfold post_link_lines, link_tokens. rewrite E. split; reflexivity.
Qed.

End Extractors.

Lemma extractors_missing_stage_witness :
  build_tokens two_builds probe_sources
  = Raise (MissingStageException COMPILATION)
  /\ (link_tokens two_builds probe_sources = Raise (MissingStageException LINK)
      /\ post_link_lines two_builds probe_sources
         = Raise (MissingStageException LINK))
  /\ (archive_tokens link_stage = Raise (MissingStageException CORE)
      /\ sketch_cache link_stage = Raise (MissingStageException CORE)).
Proof.
  split; [| split].
  - apply (proj1 (extractors_missing_stage two_builds probe_sources)).
    reflexivity.
  - apply (proj1 (proj2 (extractors_missing_stage two_builds probe_sources))).
    reflexivity.
  - apply (proj2 (proj2 (extractors_missing_stage link_stage probe_sources))).
    reflexivity.
Defined.

(** ** What [sort_line] and the recipes return *)

Lemma sort_line_Ok (line : string)
  (clean : list string -> result (list string)) (sort : Filter)
  (first : string) (sorted negated : list string) :
  sort_line line (Some clean) (Some sort) = Ok (first, sorted, negated) ->
  exists tokens rest,
    safe_split line false = Ok tokens
    /\ clean tokens = Ok (first :: rest)
    /\ sort rest false = Ok sorted
    /\ sort rest true = Ok negated.
Proof.
  unfold sort_line. intros H.
  apply bind_Ok in H. destruct H as (tokens & Hsplit & H).
  apply bind_Ok in H. destruct H as (cleaned & Hclean & H).
  destruct cleaned as [| first' rest]; [discriminate |].
  apply bind_Ok in H. destruct H as (s & Hs & H).
  apply bind_Ok in H. destruct H as (n & Hn & H).
  injection H as <- <- <-. exists tokens, rest. auto.
Qed.

Lemma subseq_In {A} (s l : list A) :
  subseq s l -> forall x, In x s -> In x l.
Proof.
  induction 1 as [| y s l _ IH | y s l _ IH]; intros x Hx.
  - destruct Hx.
  - right. apply IH, Hx.
  - destruct Hx as [<- | Hx]; [left; reflexivity | right; apply IH, Hx].
Qed.

Lemma subseq_trans {A} (a b c : list A) :
  subseq a b -> subseq b c -> subseq a c.
Proof.
  intros Hab Hbc. revert a Hab.
  induction Hbc as [| y b c _ IH | y b c _ IH]; intros a Hab.
  - exact Hab.
  - apply subseq_skip, IH, Hab.
  - inversion Hab; subst.
    + apply subseq_skip, IH. assumption.
    + apply subseq_take, IH. assumption.
Qed.

Section Recipes.
Context {RE : RegexEngine}.

(** X13: [sort_line] with one of the two filters as its sorter splits the
    cleaned tokens after the first into two complementary parts: whenever
    it returns, the first component is the first cleaned token and the
    other two are the kept and the dropped tokens of the rest, each in
    the order of the line. *)
Theorem sort_line_partition :
  forall (line : string) (clean : list string -> result (list string))
         (sort : Filter) (flags : dict string Check) (filenames : list string)
         (first : string) (sorted negated : list string),
    sort = filter_by_flags flags \/ sort = filter_by_filenames filenames ->
    sort_line line (Some clean) (Some sort) = Ok (first, sorted, negated) ->
    exists tokens rest,
      safe_split line false = Ok tokens
      /\ clean tokens = Ok (first :: rest)
      /\ complementary rest sorted negated.
Proof.
  intros line clean sort flags filenames first sorted negated which H.
  destruct (sort_line_Ok _ _ _ H) as (tokens & rest & Hs & Hc & Hk & Hd).
  exists tokens, rest. repeat split; try assumption.
  destruct which as [-> | ->].
  - pose proof (filter_by_flags_partition flags rest) as P.
    unfold partition_of in P. rewrite Hk, Hd in P. exact P.
  - pose proof (filter_by_filenames_partition filenames rest) as P.
    unfold partition_of in P. rewrite Hk, Hd in P. exact P.
Qed.

Lemma filter_by_filenames_complete (filenames t kept : list string)
  (negate : bool) (x : string) :
  filter_by_filenames filenames t negate = Ok kept ->
  In x t ->
  match_any filenames x = Ok negate ->
  In x kept.
Proof.
  intros H Hin Hm. destruct t as [| x0 t]; [destruct Hin |].
  destruct (@filter_by_filenames_compiles _ _ _ _ _ _ H) as [matchers compiled].
  remember (x0 :: t) as l eqn:El. clear El.
  rewrite (@filter_by_filenames_compiled _ _ _ l negate compiled) in H.
  injection H as <-. apply filter_In. split; [exact Hin |].
  unfold match_any in Hm. rewrite compiled in Hm. simpl in Hm.
  injection Hm as ->. apply Bool.eqb_reflx.
Qed.

Lemma match_any_cons_true (pattern : string) (others : list string)
  (item : string) :
  match_any (pattern :: others) item = Ok true ->
  match_any [pattern] item = Ok true \/ match_any others item = Ok true.
Proof.
  unfold match_any. simpl.
  destruct (re_compile pattern) as [m | e]; [| discriminate]. simpl.
  destruct (mapM re_compile others) as [ms | e]; [| discriminate]. simpl.
  intros H. injection H as H. apply orb_true_iff in H.
  destruct H as [H | H]; [left | right]; rewrite ?H; reflexivity.
Qed.

(** X14: whatever [link_tokens] returns is the link line cleaned and
    sorted: the linker and the tokens after it are what the cleaner leaves
    of the line's tokens (no [-o] with its argument, no object of a
    source); the link flags are those of them that match none of the five
    linkable patterns, the linkables the others, the link objects the
    linkables that end in [.o] and the link libraries the linkables that
    match one of the four library patterns.  So every cleaned token after
    the linker is a flag, an object or a library, all in the order of the
    line, and none of them matches the object name of a source. *)
Theorem link_tokens_sorted :
  forall (stages : dict Stage (list string)) (sources : dict Source Path)
         (linker : string) (link_flags link_objects link_libraries : list string),
    link_tokens stages sources
    = Ok (linker, link_flags, link_objects, link_libraries) ->
    exists line tokens cleaned rest linkables,
      identify_link_line stages (object_names_of sources) = Ok line
      /\ safe_split line false = Ok tokens
      /\ filter_by_flags [("-o", Const true)] tokens false = Ok cleaned
      /\ filter_by_filenames (object_names_of sources) cleaned false
         = Ok (linker :: rest)
      /\ filter_by_filenames
           ["\.o$"; "\.a$"; "^-l"; "--start-group$"; "--end-group$"] rest false
         = Ok link_flags
      /\ filter_by_filenames
           ["\.o$"; "\.a$"; "^-l"; "--start-group$"; "--end-group$"] rest true
         = Ok linkables
      /\ filter_by_filenames ["\.o$"] linkables true = Ok link_objects
      /\ filter_by_filenames
           ["\.a$"; "^-l"; "--start-group$"; "--end-group$"] linkables true
         = Ok link_libraries
      /\ subseq (linker :: rest) tokens
      /\ subseq link_flags rest
      /\ subseq link_objects rest
      /\ subseq link_libraries rest
      /\ (forall x, In x rest ->
            In x link_flags \/ In x link_objects \/ In x link_libraries)
      /\ (forall x, In x link_flags ->
            match_any ["\.o$"; "\.a$"; "^-l"; "--start-group$"; "--end-group$"] x
            = Ok false)
      /\ (forall x, In x link_objects -> match_any ["\.o$"] x = Ok true)
      /\ (forall x, In x link_libraries ->
            match_any ["\.a$"; "^-l"; "--start-group$"; "--end-group$"] x
            = Ok true)
      /\ (forall x, In x (linker :: rest) ->
            match_any (object_names_of sources) x = Ok false).
Proof.
  intros stages sources linker link_flags link_objects link_libraries H.
  unfold link_tokens in H.
  apply bind_Ok in H. destruct H as (line & Hline & H).
  apply bind_Ok in H. destruct H as ([[linker' flags'] linkables] & Hsort & H).
  apply bind_Ok in H. destruct H as (objects & Hobj & H).
  apply bind_Ok in H. destruct H as (libraries & Hlib & H).
  injection H as <- <- <- <-.
  destruct (sort_line_Ok _ _ _ Hsort)
    as (tokens & rest & Hsplit & Hclean & Hflags & Hlinkables).
  apply bind_Ok in Hclean. destruct Hclean as (cleaned & Hc1 & Hc2).
  destruct (@filter_by_filenames_stable _ _ _ _ _ Hc2) as (Sc2 & Pc2 & _).
  destruct (@filter_by_filenames_stable _ _ _ _ _ Hflags) as (Sf & Pf & _).
  destruct (@filter_by_filenames_stable _ _ _ _ _ Hlinkables) as (Sl & Pl & _).
  destruct (@filter_by_filenames_stable _ _ _ _ _ Hobj) as (So & Po & _).
  destruct (@filter_by_filenames_stable _ _ _ _ _ Hlib) as (Sb & Pb & _).
  pose proof (filter_by_flags_partition [("-o", Const true)] tokens) as Pflags.
  unfold partition_of in Pflags. rewrite Hc1 in Pflags.
  destruct (filter_by_flags [("-o", Const true)] tokens true);
    [| contradiction].
  destruct Pflags as (mask & _ & _ & _ & Sc1 & _).
  exists line, tokens, cleaned, rest, linkables. repeat split; auto.
  - apply (subseq_trans Sc2 Sc1).
  - apply (subseq_trans So Sl).
  - apply (subseq_trans Sb Sl).
  - intros x Hx.
    pose proof (filter_by_filenames_partition
                  ["\.o$"; "\.a$"; "^-l"; "--start-group$"; "--end-group$"]
                  rest) as P.
    unfold partition_of in P. rewrite Hflags, Hlinkables in P.
    destruct P as (mask' & _ & _ & _ & _ & _ & Perm & _).
    apply (Permutation_in x (Permutation_sym Perm)) in Hx.
    apply in_app_or in Hx. destruct Hx as [Hx | Hx]; [left; exact Hx |].
    right. destruct (match_any_cons_true _ _ _ (Pl x Hx)) as [Ho | Hb].
    + left. apply (@filter_by_filenames_complete _ _ _ _ _ Hobj Hx Ho).
    + right. apply (@filter_by_filenames_complete _ _ _ _ _ Hlib Hx Hb).
Qed.

End Recipes.

Lemma sort_line_partition_witness :
  exists tokens rest,
    safe_split "avr-gcc -Iinc -Os -Iinc2" false = Ok tokens
    /\ Ok tokens = Ok ("avr-gcc" :: rest)
    /\ complementary rest ["-Os"] ["-Iinc"; "-Iinc2"].
Proof.
  apply (@sort_line_partition python_re "avr-gcc -Iinc -Os -Iinc2"
           (fun tokens => Ok tokens)
           (filter_by_flags [("-I", Callable (fun item => String.eqb item "-I"))])
           [("-I", Callable (fun item => String.eqb item "-I"))] []
           "avr-gcc" ["-Os"] ["-Iinc"; "-Iinc2"]).
  - left. reflexivity.
  - reflexivity.
Defined.

Lemma link_tokens_sorted_witness :
  exists line tokens cleaned rest linkables,
    identify_link_line link_stage (object_names_of link_sources) = Ok line
    /\ safe_split line false = Ok tokens
    /\ filter_by_flags [("-o", Const true)] tokens false = Ok cleaned
    /\ filter_by_filenames (object_names_of link_sources) cleaned false
       = Ok ("avr-gcc" :: rest)
    /\ filter_by_filenames
         ["\.o$"; "\.a$"; "^-l"; "--start-group$"; "--end-group$"] rest true
       = Ok linkables
    /\ forall x, In x rest ->
         In x [] \/ In x []
         \/ In x ["core.a"; "-lm"; "--start-group"; "--end-group"].
Proof.
  assert (run : link_tokens link_stage link_sources
                = Ok ("avr-gcc", [], [],
                      ["core.a"; "-lm"; "--start-group"; "--end-group"]))
    by (vm_compute; reflexivity).
  destruct (@link_tokens_sorted python_re link_stage link_sources _ _ _ _ run)
    as (line & tokens & cleaned & rest & linkables & H1 & H2 & H3 & H4 & _ & H5
        & _ & _ & _ & _ & _ & _ & H6 & _).
  exists line, tokens, cleaned, rest, linkables. auto 10.
Defined.

(** ** The compile recipe, for every log *)

Lemma mapM_In {A B} (f : A -> result B) (l : list A) (r : list B) :
  mapM f l = Ok r -> forall y, In y r -> exists x, In x l /\ f x = Ok y.
Proof.
  revert r. induction l as [| x l IH]; intros r H y Hy; simpl in H.
  - injection H as <-. destruct Hy.
  - apply bind_Ok in H. destruct H as (y0 & Hy0 & H).
    apply bind_Ok in H. destruct H as (ys & Hys & H).
    injection H as <-. destruct Hy as [<- | Hy].
    + exists x. split; [left; reflexivity | exact Hy0].
    + destruct (IH _ Hys y Hy) as (x' & Hin & Hx').
      exists x'. split; [right; exact Hin | exact Hx'].
Qed.

Lemma mapM_fst {A B C} (f : A -> result (C * B)) (g : A -> C) (l : list A)
  (r : list (C * B)) :
  (forall x y, f x = Ok y -> fst y = g x) ->
  mapM f l = Ok r -> map fst r = map g l.
Proof.
  intros Hf. revert r. induction l as [| x l IH]; intros r H; simpl in H.
  - injection H as <-. reflexivity.
  - apply bind_Ok in H. destruct H as (y0 & Hy0 & H).
    apply bind_Ok in H. destruct H as (ys & Hys & H).
    injection H as <-. simpl. rewrite (Hf _ _ Hy0), (IH _ Hys). reflexivity.
Qed.

Section CompileRecipe.
Context {RE : RegexEngine}.

(** X15: whenever [build_tokens] returns, each of its three dictionaries
    has one entry for every source kind, in the order of the enumeration,
    also for a kind that the source mapping lacks; and none of the build
    flags it returns is an include flag: the first two characters of a
    build flag never match [-I]. *)
Theorem build_tokens_entries :
  forall (stages : dict Stage (list string)) (sources : dict Source Path)
         (tools : dict Source string)
         (include_paths non_include_paths : dict Source (list string)),
    build_tokens stages sources = Ok (tools, include_paths, non_include_paths) ->
    dict_keys tools = all_sources
    /\ dict_keys include_paths = all_sources
    /\ dict_keys non_include_paths = all_sources
    /\ forall source build_flags flag,
         In (source, build_flags) non_include_paths ->
         In flag build_flags ->
         match_any ["-I"] (Py.str_take 2 flag) = Ok false.
Proof.
  intros stages sources tools include_paths non_include_paths H.
  unfold build_tokens in H.
  apply bind_Ok in H. destruct H as (source_lines & Hlines & H).
  apply bind_Ok in H. destruct H as (sorted & Hsorted & H).
  injection H as <- <- <-.
  assert (Klines : map fst source_lines = all_sources).
  { rewrite <- (map_id all_sources) at 1.
    eapply mapM_fst; [| exact Hlines].
    intros x y Hxy. apply bind_Ok in Hxy. destruct Hxy as (line & _ & Hxy).
    injection Hxy as <-. reflexivity. }
  assert (Ksorted : map fst sorted = all_sources).
  { rewrite <- Klines. eapply mapM_fst; [| exact Hsorted].
    intros [source line] y Hxy. apply bind_Ok in Hxy.
    destruct Hxy as (s & _ & Hxy). injection Hxy as <-. reflexivity. }
  unfold dict_keys. rewrite !map_map.
  repeat split.
  - rewrite <- Ksorted. apply map_ext. intros [source [[tool f] i]]. reflexivity.
  - rewrite <- Ksorted. apply map_ext. intros [source [[tool f] i]]. reflexivity.
  - rewrite <- Ksorted. apply map_ext. intros [source [[tool f] i]]. reflexivity.
  - intros source build_flags flag Hin Hflag.
    apply in_map_iff in Hin.
    destruct Hin as ([source' [[tool f] i]] & Heq & Hin).
    injection Heq as -> ->.
    destruct (@mapM_In _ _ _ _ _ Hsorted _ Hin) as ([source0 line] & _ & Hrun).
    apply bind_Ok in Hrun. destruct Hrun as (s & Hsort & Hrun).
    injection Hrun as _ ->.
    destruct (sort_line_Ok _ _ _ Hsort) as (tokens & rest & _ & _ & Hkept & _).
    destruct (@filter_by_flags_stable _ _ _ _ Hkept) as (_ & Hall & _).
    apply (Hall flag Hflag).
Qed.

End CompileRecipe.

Lemma build_tokens_entries_witness :
  exists (tools : dict Source string)
         (include_paths non_include_paths : dict Source (list string)),
    dict_keys tools = all_sources
    /\ dict_keys include_paths = all_sources
    /\ dict_keys non_include_paths = all_sources
    /\ forall source build_flags flag,
         In (source, build_flags) non_include_paths ->
         In flag build_flags ->
         match_any ["-I"] (Py.str_take 2 flag) = Ok false.
Proof.
  assert (run : exists r,
             build_tokens
               (compilation_stage
                  (input_first "avr-gcc" "-Os -Iinclude1" "special_input_file.c"))
               probe_sources = Ok r)
    by (eexists; vm_compute; reflexivity).
  destruct run as [[[tools includes] flags] run].
  exists tools, includes, flags.
  apply (@build_tokens_entries python_re _ _ _ _ _ run).
Defined.

(** ** The first parser *)



(** X17: [parse_linker_commands] reads the first line of the log after the
    first link marker and nothing else, provided one more line follows:
    the lines before the marker and after that line do not change its
    result. *)
Theorem parse_linker_commands_first_line :
  forall (pre more : list string) (linking_line last_line : string),
    ~ In link_marker pre ->
    parse_linker_commands
      (pre ++ link_marker :: linking_line :: more ++ [last_line])
    = parse_linker_commands [link_marker; linking_line; ""].
Proof.
  intros pre more linking_line last_line absent.
  unfold parse_linker_commands. fold link_marker.
  rewrite (lines_between_open pre (linking_line :: more ++ [last_line])
             link_marker absent).
  change (linking_line :: more ++ [last_line])
    with ((linking_line :: more) ++ [last_line]).
  rewrite removelast_last.
  replace (lines_between [link_marker; linking_line; ""] link_marker None)
    with (Ok [linking_line] : result (list string)).
  - reflexivity.
  - symmetry.
    apply (lines_between_open [] [linking_line; ""] link_marker).
    intros [].
Qed.

Lemma parse_linker_commands_first_line_witness :
  parse_linker_commands
    (["Compiling sketch..."] ++ link_marker :: link_line :: [objcopy_line] ++ [""])
  = parse_linker_commands [link_marker; link_line; ""].
Proof.
  apply parse_linker_commands_first_line.
  intros [H | []]; discriminate H.
Defined.

(** X18: the linker command that [parse_linker_commands] returns is
    exactly the link line's tokens, in order, that are not [-o] and do not
    end in [.o], [ino.elf], [core.a] or the directory two levels above the
    core archive: every such token of the line is in the command, as often
    as in the line, and no other token is; the path it returns is that of
    the first token of the line that ends in [core.a]. *)
Theorem parse_linker_commands_result :
  forall (output_lines : list string) (core_path : Path)
         (necessary_command_values : list string),
    parse_linker_commands output_lines
    = Ok (core_path, necessary_command_values) ->
    exists linking_line more tokens core others,
      lines_between output_lines link_marker None = Ok (linking_line :: more)
      /\ Shlex.split linking_line = Ok tokens
      /\ filter (Py.endswith "core.a") tokens = core :: others
      /\ core_path = Pathlib.make core
      /\ necessary_command_values = filter (linker_filter core_path) tokens
      /\ subseq necessary_command_values tokens
      /\ (forall item,
            In item necessary_command_values <->
            In item tokens
            /\ item <> "-o"
            /\ Py.endswith ".o" item = false
            /\ Py.endswith "ino.elf" item = false
            /\ Py.endswith "core.a" item = false
            /\ Py.endswith
                 (Pathlib.to_str (Pathlib.parent (Pathlib.parent core_path)))
                 item = false).
Proof.
  intros output_lines core_path cmd H.
  unfold parse_linker_commands in H. fold link_marker in H.
  apply bind_Ok in H. destruct H as (linking_lines & Hl & H).
  destruct linking_lines as [| linking_line more]; [discriminate |].
  apply bind_Ok in H. destruct H as (tokens & Hs & H).
  apply bind_Ok in H. destruct H as (core & Hc & H).
  injection H as <- <-.
  destruct (filter (Py.endswith "core.a") tokens) as [| core' others] eqn:Ef;
    [discriminate |].
  injection Hc as ->.
  exists linking_line, more, tokens, core, others.
  fold (linker_filter (Pathlib.make core)).
  split; [exact Hl |]. split; [exact Hs |]. split; [exact Ef |].
  split; [reflexivity |]. split; [reflexivity |]. split.
  - clear. induction tokens as [| t tokens IH]; simpl; [constructor |].
    destruct (linker_filter _ t); [apply subseq_take | apply subseq_skip];
      exact IH.
  - intros item. rewrite filter_In. unfold linker_filter.
    rewrite !andb_true_iff, !negb_true_iff.
    split.
    + intros (Hin & (((H1 & H2) & H3) & H4) & H5).
      repeat split; auto. intros ->. discriminate H1.
    + intros (Hin & H1 & H2 & H3 & H4 & H5).
      repeat split; auto. apply String.eqb_neq. exact H1.
Qed.

Lemma parse_linker_commands_result_witness :
  exists linking_line more tokens core others,
    lines_between [link_marker; link_line; ""] link_marker None
    = Ok (linking_line :: more)
    /\ Shlex.split linking_line = Ok tokens
    /\ filter (Py.endswith "core.a") tokens = core :: others
    /\ Pathlib.make "core.a" = Pathlib.make core
    /\ ["avr-gcc"; "-lm"; "--start-group"; "--end-group"]
       = filter (linker_filter (Pathlib.make "core.a")) tokens.
Proof.
  destruct (@parse_linker_commands_result [link_marker; link_line; ""]
              (Pathlib.make "core.a")
              ["avr-gcc"; "-lm"; "--start-group"; "--end-group"])
    as (linking_line & more & tokens & core & others & H1 & H2 & H3 & H4 & H5 & _).
  - vm_compute. reflexivity.
  - exists linking_line, more, tokens, core, others. auto.
Defined.

(** Reading a dictionary after writing to it. *)
Lemma dict_get_set {V} (d : dict string V) (k k' : string) (v : V) :
  dict_get String.eqb (dict_set String.eqb d k v) k'
  = if String.eqb k k' then Some v else dict_get String.eqb d k'.
Proof.
  induction d as [| [k0 v0] d IH]; simpl.
  - reflexivity.
  - destruct (String.eqb_spec k0 k) as [-> | Hne]; simpl.
    + destruct (String.eqb k k'); reflexivity.
    + destruct (String.eqb_spec k0 k') as [-> | Hne'].
      * destruct (String.eqb_spec k k') as [-> | _];
          [contradiction Hne; reflexivity | reflexivity].
      * exact IH.
Qed.

Lemma compilation_loop_get (compilation_lines : list string)
  (items : list (string * Path)) :
  forall output_mapping out,
    compilation_loop compilation_lines items output_mapping = Ok out ->
    forall file_type,
      match dict_get String.eqb out file_type with
      | Some command =>
          (exists path, In (file_type, path) items
                        /\ compilation_command compilation_lines path
                           = Ok command)
          \/ dict_get String.eqb output_mapping file_type = Some command
      | None =>
          dict_get String.eqb output_mapping file_type = None
          /\ forall path, ~ In (file_type, path) items
      end.
Proof.
  induction items as [| [file_type0 path0] items IH];
    intros output_mapping out H file_type; simpl in H.
  - injection H as <-.
    destruct (dict_get String.eqb output_mapping file_type); auto.
  - apply bind_Ok in H. destruct H as (necessary & Hone & H).
    specialize (IH _ _ H file_type). rewrite dict_get_set in IH.
    destruct (dict_get String.eqb out file_type) as [command |].
    + destruct IH as [(path & Hin & Hc) | IH].
      * left. exists path. split; [right; exact Hin | exact Hc].
      * destruct (String.eqb_spec file_type0 file_type) as [-> | _].
        -- injection IH as <-. left. exists path0.
           split; [left; reflexivity | exact Hone].
        -- right. exact IH.
    + destruct IH as [IH Hno].
      destruct (String.eqb_spec file_type0 file_type) as [-> | Hne];
        [discriminate |].
      split; [exact IH |].
      intros path [Heq | Hin]; [injection Heq as E _; contradiction | ].
      apply (Hno path Hin).
Qed.

(** X19: whenever [parse_compilation_commands] returns, its result has an
    entry exactly for the file types of the mapping, and the entry of a
    file type is the command of one of its files: the tokens of the first
    compilation line that names that file's object, in order, without
    [-c], [-o] and every token that ends in the name of the file or of its
    object. *)
Theorem parse_compilation_commands_result :
  forall (output_lines : list string) (mapping : dict string Path)
         (out : dict string (list string)),
    parse_compilation_commands output_lines mapping = Ok out ->
    forall file_type,
      match dict_get String.eqb out file_type with
      | Some command =>
          exists path compilation_lines line shell_split,
            In (file_type, path) mapping
            /\ lines_between output_lines "Compiling sketch..."
                 (Some "Compiling libraries...") = Ok compilation_lines
            /\ Py.first (matching_lines_of (Pathlib.name path)
                           compilation_lines) = Ok line
            /\ Shlex.split line = Ok shell_split
            /\ command
               = filter (compilation_filter (Pathlib.name path)) shell_split
            /\ forall item, In item command ->
                 item <> "-c" /\ item <> "-o"
                 /\ Py.endswith (Pathlib.name path) item = false
      | None => forall path, ~ In (file_type, path) mapping
      end.
Proof.
  intros output_lines mapping out H file_type.
  unfold parse_compilation_commands in H.
  apply bind_Ok in H. destruct H as (compilation_lines & Hlines & H).
  pose proof (compilation_loop_get _ _ _ H file_type) as G.
  destruct (dict_get String.eqb out file_type) as [command |].
  - destruct G as [(path & Hin & Hc) | G]; [| discriminate].
    destruct (compilation_command_Ok _ _ Hc)
      as (line & shell_split & Hline & Hsplit & Hnec & _).
    exists path, compilation_lines, line, shell_split.
    repeat split; auto; subst command.
    + apply filter_In in H0. destruct H0 as [_ H0]. intros ->.
      unfold compilation_filter in H0. simpl in H0.
      rewrite andb_false_r in H0. discriminate.
    + apply filter_In in H0. destruct H0 as [_ H0]. intros ->.
      discriminate H0.
    + apply filter_In in H0. destruct H0 as [_ H0].
      unfold compilation_filter in H0.
      destruct (Py.endswith (Pathlib.name path) item); [| reflexivity].
      simpl in H0. rewrite andb_false_r in H0. discriminate.
  - apply G.
Qed.

Lemma parse_compilation_commands_result_witness :
  match dict_get String.eqb [("c", ["gcc"; "-g"])] "c" with
  | Some command =>
      exists path compilation_lines line shell_split,
        In ("c", path) small_mapping
        /\ lines_between small_log "Compiling sketch..."
             (Some "Compiling libraries...") = Ok compilation_lines
        /\ Py.first (matching_lines_of (Pathlib.name path)
                       compilation_lines) = Ok line
        /\ Shlex.split line = Ok shell_split
        /\ command = filter (compilation_filter (Pathlib.name path)) shell_split
        /\ forall item, In item command ->
             item <> "-c" /\ item <> "-o"
             /\ Py.endswith (Pathlib.name path) item = false
  | None => forall path, ~ In ("c", path) small_mapping
  end.
Proof.
  apply (@parse_compilation_commands_result small_log small_mapping
           [("c", ["gcc"; "-g"])]).
  reflexivity.
Defined.

(** ** Strings *)

Lemma str_app_assoc (a b c : string) :
  ((a ++ b) ++ c)%string = (a ++ (b ++ c))%string.
Proof. induction a as [| x a IH]; simpl; [reflexivity | rewrite IH; reflexivity]. Qed.

Lemma str_app_nil_r (a : string) : (a ++ "")%string = a.
Proof. induction a as [| x a IH]; simpl; [reflexivity | rewrite IH; reflexivity]. Qed.

Lemma chars_app (a b : string) :
  Py.chars (a ++ b)%string = Py.chars a ++ Py.chars b.
Proof.
  unfold Py.chars. induction a as [| x a IH]; simpl;
    [reflexivity | rewrite IH; reflexivity].
Qed.

Lemma str_drop_app (a b : string) :
  Py.str_drop (String.length a) (a ++ b)%string = b.
Proof. induction a as [| x a IH]; simpl; [destruct b; reflexivity | exact IH]. Qed.

Lemma str_drop_after (a : string) (c : ascii) (b : string) :
  Py.str_drop (String.length a + 1) (a ++ String c b)%string = b.
Proof. induction a as [| x a IH]; simpl; [destruct b; reflexivity | exact IH]. Qed.

(** ** [util.py]: paths of flags and indented listings *)

Lemma str_index_first (key value : string) (c : ascii) :
  ~ In c (Py.chars key) ->
  str_index (key ++ String c value)%string c = Ok (String.length key).
Proof.
  induction key as [| d key IH]; intros absent; simpl.
  - rewrite Ascii.eqb_refl. reflexivity.
  - destruct (Ascii.eqb_spec d c) as [-> | _].
    + contradiction absent. left. reflexivity.
    + rewrite IH; [reflexivity |]. intros H. apply absent. right. exact H.
Qed.

Lemma str_index_absent (s : string) (c : ascii) :
  ~ In c (Py.chars s) -> str_index s c = Raise (ValueError "substring not found").
Proof.
  induction s as [| d s IH]; intros absent; simpl; [reflexivity |].
  destruct (Ascii.eqb_spec d c) as [-> | _].
  - contradiction absent. left. reflexivity.
  - rewrite IH; [reflexivity |]. intros H. apply absent. right. exact H.
Qed.

(** X20: [get_path_from_flag] takes an item that does not start with a
    dash as the path itself; of a flag with an equals sign it takes what
    follows the first equals sign; of a flag without one it takes what
    follows its first two characters. *)
Theorem get_path_from_flag_cases :
  (forall item,
      Py.startswith "-" item = false ->
      get_path_from_flag item = Pathlib.make item)
  /\ (forall key value,
         ~ In "="%char (Py.chars key) ->
         get_path_from_flag ("-" ++ key ++ "=" ++ value)%string
         = Pathlib.make value)
  /\ (forall item,
         Py.startswith "-" item = true ->
         ~ In "="%char (Py.chars item) ->
         get_path_from_flag item = Pathlib.make (Py.str_drop 2 item)).
Proof.
  repeat split.
  - intros item H. unfold get_path_from_flag. rewrite H. reflexivity.
  - intros key value absent. unfold get_path_from_flag.
    change (Py.startswith "-" ("-" ++ key ++ "=" ++ value)) with true.
    cbv iota.
    change ("-" ++ key ++ "=" ++ value)%string
      with (("-" ++ key) ++ String "=" value)%string.
    rewrite str_index_first.
    + cbn [bind]. rewrite str_drop_after. reflexivity.
    + intros [H | H]; [discriminate H | apply absent, H].
  - intros item H absent. unfold get_path_from_flag. rewrite H.
    rewrite (@str_index_absent _ _ absent). reflexivity.
Qed.

Lemma get_path_from_flag_cases_witness :
  get_path_from_flag "/opt/core/core.a" = Pathlib.make "/opt/core/core.a"
  /\ get_path_from_flag ("-" ++ "-sysroot" ++ "=" ++ "/opt/avr")%string
     = Pathlib.make "/opt/avr"
  /\ get_path_from_flag "-L/opt/lib" = Pathlib.make (Py.str_drop 2 "-L/opt/lib").
Proof.
  split; [| split].
  - apply (proj1 get_path_from_flag_cases). reflexivity.
  - apply (proj1 (proj2 get_path_from_flag_cases)).
    vm_compute. intuition discriminate.
  - apply (proj2 (proj2 get_path_from_flag_cases)); [reflexivity |].
    vm_compute. intuition discriminate.
Defined.

Lemma concat_prefixed (join_string line : string) (lines : list string) :
  (join_string ++ Py.join join_string (line :: lines))%string
  = String.concat "" (map (String.append join_string) (line :: lines)).
Proof.
  revert line. induction lines as [| next lines IH]; intros line.
  - reflexivity.
  - change (Py.join join_string (line :: next :: lines))
      with (line ++ join_string ++ Py.join join_string (next :: lines))%string.
    rewrite IH.
    change (String.concat "" (map (String.append join_string)
                                  (line :: next :: lines)))
      with ((join_string ++ line) ++ ""
            ++ String.concat "" (map (String.append join_string)
                                     (next :: lines)))%string.
    rewrite str_app_assoc. reflexivity.
Qed.

(** X21: [prefixed_join] writes the join string before every line, so its
    result is the lines, each with the join string in front, one after the
    other; of no lines it still writes the join string once.  So
    [string_dictionary_of_list] writes, for every key, a new line with the
    indent and the key, followed by its lines, each on a new line of its
    own with one more tab. *)
Theorem prefixed_join_lines :
  (forall join_string line lines,
      prefixed_join join_string (line :: lines)
      = String.concat "" (map (String.append join_string) (line :: lines)))
  /\ (forall join_string, prefixed_join join_string [] = join_string)
  /\ (forall (K : Type) (show : K -> string) (key : K) (lines : list string)
             (mapping : dict K (list string)) (base_indent : nat),
         let joiner :=
           (String "010"%char "" ++ Py.str (repeat "009"%char base_indent))%string
         in
         string_dictionary_of_list show ((key, lines) :: mapping) base_indent
         = String.concat ""
             (map (fun '(key, lines) =>
                     (joiner ++ show key
                      ++ prefixed_join (joiner ++ String "009"%char "") lines)%string)
                  ((key, lines) :: mapping))).
Proof.
  repeat split.
  - intros. apply concat_prefixed.
  - intros. unfold prefixed_join. apply str_app_nil_r.
  - intros K show key lines mapping base_indent joiner.
    unfold string_dictionary_of_list. fold joiner.
    unfold prefixed_join at 1. cbn [map]. rewrite concat_prefixed.
    f_equal. cbn [map]. f_equal. rewrite map_map.
    apply map_ext. intros [k l]. reflexivity.
Qed.

(** ** The shell splitter *)

Lemma tokens_raise (instream : list ascii) :
  forall (state escapedstate : Shlex.lstate) (quoted : bool) (token : string)
         (e : exn),
    Shlex.tokens instream state escapedstate quoted token = Raise e ->
    e = ValueError "No closing quotation" \/ e = ValueError "No escaped character".
Proof.
  induction instream as [| c instream IH];
    intros state escapedstate quoted token e H;
    destruct state; simpl in H; try discriminate;
    try (injection H as <-; auto; fail).
  all: repeat match type of H with
         | context [if ?b then _ else _] => destruct b
         end.
  all: try (apply (IH _ _ _ _ _ H)).
  all: match type of H with
       | context [Shlex.tokens ?i ?s ?es ?q ?t] =>
           destruct (Shlex.tokens i s es q t) as [later | e'] eqn:E;
           simpl in H; [discriminate | injection H as <-; apply (IH _ _ _ _ _ E)]
       end.
Qed.

(** X22: the shell splitter fails in two ways only, an open quotation and a
    backslash at the end of the line; [safe_split] reports them as a
    [ValueError] whose text ends with the line, between single quotes,
    returns the empty list instead when [ignore_errors] is set, and with
    [ignore_errors] set never raises. *)
Theorem safe_split_errors :
  forall line : string,
    (exists tokens, safe_split line true = Ok tokens)
    /\ (forall tokens, safe_split line false = Ok tokens ->
                       safe_split line true = Ok tokens)
    /\ (forall e, safe_split line false = Raise e ->
          safe_split line true = Ok []
          /\ (e = ValueError ("No closing quotation in '" ++ line ++ "'")%string
              \/ e = ValueError ("No escaped character in '" ++ line ++ "'")%string)).
Proof.
  intros line. unfold safe_split.
  destruct (Shlex.split (Py.strip line)) as [tokens | e] eqn:E.
  - repeat split; eauto; discriminate.
  - destruct (tokens_raise _ _ _ _ _ E) as [-> | ->].
    + repeat split; eauto; try discriminate.
      left. injection H as <-. reflexivity.
    + repeat split; eauto; try discriminate.
      right. injection H as <-. reflexivity.
Qed.

Lemma safe_split_errors_witness :
  safe_split "avr-gcc 'unclosed" true = Ok []
  /\ (ValueError "No closing quotation in 'avr-gcc 'unclosed'"
      = ValueError ("No closing quotation in '" ++ "avr-gcc 'unclosed" ++ "'")%string
      \/ ValueError "No closing quotation in 'avr-gcc 'unclosed'"
         = ValueError ("No escaped character in '" ++ "avr-gcc 'unclosed" ++ "'")%string).
Proof.
  apply (proj2 (proj2 (safe_split_errors "avr-gcc 'unclosed"))).
  reflexivity.
Defined.

Lemma plain_char_shell (c : ascii) :
  plain_char c = true ->
  Shlex.whitespace c = false /\ Shlex.quotes c = false /\ Shlex.escape c = false
  /\ Py.isspace c = false.
Proof.
  unfold plain_char. intros H.
  apply andb_true_iff in H. destruct H as [H He].
  apply andb_true_iff in H. destruct H as [Hs Hq].
  apply negb_true_iff in Hs, Hq, He. repeat split; auto.
  unfold Shlex.whitespace.
  destruct (Ascii.eqb_spec c " ") as [-> | _]; [discriminate Hs |].
  destruct (Ascii.eqb_spec c "009") as [-> | _]; [discriminate Hs |].
  destruct (Ascii.eqb_spec c "013") as [-> | _]; [discriminate Hs |].
  destruct (Ascii.eqb_spec c "010") as [-> | _]; [discriminate Hs |].
  reflexivity.
Qed.

Lemma tokens_plain (w rest : list ascii) :
  forall (escapedstate : Shlex.lstate) (quoted : bool) (token : string),
    forallb plain_char w = true ->
    Shlex.tokens (w ++ rest) Shlex.LWord escapedstate quoted token
    = Shlex.tokens rest Shlex.LWord escapedstate quoted (token ++ Py.str w)%string.
Proof.
  induction w as [| c w IH]; intros escapedstate quoted token plain.
  - simpl. rewrite str_app_nil_r. reflexivity.
  - simpl in plain. apply andb_true_iff in plain. destruct plain as [Hc Hw].
    destruct (plain_char_shell c Hc) as (Hws & Hq & He & _).
    cbn [app Shlex.tokens]. rewrite Hws, Hq, He.
    rewrite (IH _ _ _ Hw). unfold Shlex.add. rewrite str_app_assoc. reflexivity.
Qed.

(** A plain word at the start of the input is read as one token. *)
Lemma tokens_word (w : string) (rest : list ascii) :
  plain_word w = true ->
  Shlex.tokens (Py.chars w ++ rest) Shlex.LSpace Shlex.LSpace false ""
  = Shlex.tokens rest Shlex.LWord Shlex.LSpace false w.
Proof.
  unfold plain_word. intros H.
  apply andb_true_iff in H. destruct H as [Hne Hplain].
  destruct w as [| c w]; [discriminate Hne |].
  unfold Py.chars in *. simpl in Hplain.
  apply andb_true_iff in Hplain. destruct Hplain as [Hc Hw].
  destruct (plain_char_shell c Hc) as (Hws & Hq & He & _).
  cbn [list_ascii_of_string app Shlex.tokens]. rewrite Hws, Hq, He.
  rewrite (tokens_plain _ _ _ _ _ Hw). simpl.
  unfold Py.str. rewrite string_of_list_ascii_of_string. reflexivity.
Qed.

Lemma plain_word_nonempty (w : string) : plain_word w = true -> w <> "".
Proof. intros H ->. discriminate H. Qed.

Lemma split_plain_words (words : list string) :
  forallb plain_word words = true ->
  Shlex.split (Py.join " " words) = Ok words.
Proof.
  unfold Shlex.split, Py.join.
  induction words as [| w words IH]; intros H; [reflexivity |].
  simpl in H. apply andb_true_iff in H. destruct H as [Hw Hws].
  assert (emit_w : forall later, Shlex.emit w false later = w :: later).
  { intros later. unfold Shlex.emit, Shlex.token_result.
    destruct w; [discriminate Hw | reflexivity]. }
  destruct words as [| w2 words].
  - cbn [String.concat]. rewrite <- (app_nil_r (Py.chars w)).
    rewrite (tokens_word _ _ Hw). simpl. rewrite emit_w. reflexivity.
  - change (String.concat " " (w :: w2 :: words))
      with (w ++ " " ++ String.concat " " (w2 :: words))%string.
    rewrite chars_app. rewrite (tokens_word _ _ Hw).
    change (Py.chars (" " ++ String.concat " " (w2 :: words))%string)
      with (" "%char :: Py.chars (String.concat " " (w2 :: words))).
    cbn [Shlex.tokens]. change (Shlex.whitespace " ") with true. cbv iota.
    replace (negb (String.eqb w "") || false) with true
      by (destruct w; [discriminate Hw | reflexivity]).
    rewrite (IH Hws). cbn [bind]. rewrite emit_w. reflexivity.
Qed.

Lemma lstrip_head (c : ascii) (l : list ascii) :
  Py.isspace c = false -> Py.lstrip_chars (c :: l) = c :: l.
Proof. intros H. simpl. rewrite H. reflexivity. Qed.

Lemma strip_chars_id (l : list ascii) (first last_ : ascii) (mid : list ascii) :
  l = first :: mid ++ [last_] \/ (l = [first] /\ last_ = first) ->
  Py.isspace first = false ->
  Py.isspace last_ = false ->
  rev (Py.lstrip_chars (rev (Py.lstrip_chars l))) = l.
Proof.
  intros shape Hf Hl. destruct shape as [-> | [-> ->]].
  - rewrite (@lstrip_head _ _ Hf).
    change (first :: mid ++ [last_]) with ((first :: mid) ++ [last_]).
    replace (rev ((first :: mid) ++ [last_])) with (last_ :: rev (first :: mid))
      by (rewrite rev_app_distr; reflexivity).
    rewrite (@lstrip_head _ _ Hl).
    replace (rev (last_ :: rev (first :: mid)))
      with (rev (rev (first :: mid)) ++ [last_]) by reflexivity.
    rewrite rev_involutive. reflexivity.
  - rewrite (@lstrip_head _ _ Hf). simpl. rewrite Hf. reflexivity.
Qed.

(** The first and the last character of a line of plain words. *)
Lemma join_ends (w : string) (words : list string) :
  forallb plain_word (w :: words) = true ->
  exists first last_ mid,
    (Py.chars (Py.join " " (w :: words)) = first :: mid ++ [last_]
     \/ (Py.chars (Py.join " " (w :: words)) = [first] /\ last_ = first))
    /\ Py.isspace first = false /\ Py.isspace last_ = false.
Proof.
  revert w. induction words as [| w2 words IH]; intros w H.
  - simpl in H. rewrite andb_true_r in H. unfold plain_word in H.
    apply andb_true_iff in H. destruct H as [Hne Hall].
    unfold Py.join. cbn [String.concat].
    destruct (Py.chars w) as [| c cs] eqn:E.
    { destruct w; [discriminate Hne | discriminate E]. }
    simpl in Hall. apply andb_true_iff in Hall. destruct Hall as [Hc Hcs].
    destruct (plain_char_shell c Hc) as (_ & _ & _ & Hsp).
    destruct cs as [| d cs] using rev_ind.
    + exists c, c, []. split; [right; auto | auto].
    + exists c, d, cs. split; [left; reflexivity |]. split; [exact Hsp |].
      rewrite forallb_app in Hcs. simpl in Hcs.
      apply andb_true_iff in Hcs. destruct Hcs as [_ Hd].
      rewrite andb_true_r in Hd.
      apply (plain_char_shell d Hd).
  - cbn [forallb] in H. apply andb_true_iff in H. destruct H as [Hw Hrest].
    destruct (IH w2 Hrest) as (f2 & l2 & mid2 & shape & _ & Hl2).
    unfold Py.join in *.
    change (String.concat " " (w :: w2 :: words))
      with (w ++ " " ++ String.concat " " (w2 :: words))%string.
    rewrite chars_app.
    change (Py.chars (" " ++ String.concat " " (w2 :: words))%string)
      with (" "%char :: Py.chars (String.concat " " (w2 :: words))).
    unfold plain_word in Hw. apply andb_true_iff in Hw. destruct Hw as [Hne Hall].
    destruct (Py.chars w) as [| c cs] eqn:E.
    { destruct w; [discriminate Hne | discriminate E]. }
    simpl in Hall. apply andb_true_iff in Hall. destruct Hall as [Hc _].
    destruct (plain_char_shell c Hc) as (_ & _ & _ & Hsp).
    exists c, l2.
    destruct shape as [-> | [-> ->]].
    + exists (cs ++ " "%char :: f2 :: mid2). split; [left | auto].
      cbn [app]. f_equal. rewrite <- app_assoc. reflexivity.
    + exists (cs ++ [" "%char]). split; [left | auto].
      cbn [app]. f_equal. rewrite <- app_assoc. reflexivity.
Qed.

(** X23: a line of words of plain characters (code points below 256 that
    are no white space of [str.strip], the next-line control and the
    no-break space among it, no quote and no backslash), with one space
    between them, splits into exactly those words, in order, by
    [shlex.split] and by [safe_split]. *)
Theorem split_join_words :
  forall words : list string,
    forallb plain_word words = true ->
    Shlex.split (Py.join " " words) = Ok words
    /\ safe_split (Py.join " " words) false = Ok words.
Proof.
  intros words H. split; [apply split_plain_words, H |].
  unfold safe_split.
  replace (Py.strip (Py.join " " words)) with (Py.join " " words).
  - rewrite (split_plain_words _ H). reflexivity.
  - destruct words as [| w words]; [reflexivity |].
    destruct (join_ends _ _ H) as (first & last_ & mid & shape & Hf & Hl).
    unfold Py.strip. rewrite (@strip_chars_id _ _ _ _ shape Hf Hl).
    unfold Py.str, Py.chars. symmetry. apply string_of_list_ascii_of_string.
Qed.

Lemma split_join_words_witness :
  Shlex.split (Py.join " " ["avr-gcc"; "-Os"; "-I/opt/include"; "main.c"])
  = Ok ["avr-gcc"; "-Os"; "-I/opt/include"; "main.c"]
  /\ safe_split (Py.join " " ["avr-gcc"; "-Os"; "-I/opt/include"; "main.c"]) false
     = Ok ["avr-gcc"; "-Os"; "-I/opt/include"; "main.c"].
Proof.
  apply split_join_words. reflexivity.
Defined.

Lemma tokens_single_quoted (text rest : list ascii) :
  forall (escapedstate : Shlex.lstate) (quoted : bool) (token : string),
    ~ In "'"%char text ->
    Shlex.tokens (text ++ rest) (Shlex.LQuote "'") escapedstate quoted token
    = Shlex.tokens rest (Shlex.LQuote "'") escapedstate
        (match text with [] => quoted | _ => true end)
        (token ++ Py.str text)%string.
Proof.
  induction text as [| c text IH]; intros escapedstate quoted token absent.
  - simpl. rewrite str_app_nil_r. reflexivity.
  - cbn [app Shlex.tokens].
    destruct (Ascii.eqb_spec c "'") as [-> | _].
    { contradiction absent. left. reflexivity. }
    replace (Shlex.escape c && Shlex.escapedquotes "'") with false
      by (rewrite andb_false_r; reflexivity).
    rewrite IH by (intros H; apply absent; right; exact H).
    unfold Shlex.add. rewrite str_app_assoc.
    destruct text; reflexivity.
Qed.

(** X24: between single quotes everything is taken as it is: a line that
    is one single-quoted text, with spaces, double quotes or backslashes
    but no single quote inside, splits into that text as its only token,
    also when the text is empty; without the closing quote the split
    raises [ValueError] for the open quotation. *)
Theorem split_single_quoted :
  forall text : string,
    ~ In "'"%char (Py.chars text) ->
    Shlex.split ("'" ++ text ++ "'")%string = Ok [text]
    /\ Shlex.split ("'" ++ text)%string
       = Raise (ValueError "No closing quotation").
Proof.
  intros text absent. unfold Shlex.split. split.
  - change (Py.chars ("'" ++ text ++ "'")%string)
      with ("'"%char :: Py.chars (text ++ "'")%string).
    rewrite chars_app. cbn [Shlex.tokens].
    change (Shlex.whitespace "'") with false.
    change (Shlex.escape "'") with false.
    change (Shlex.quotes "'") with true. cbv iota.
    rewrite (@tokens_single_quoted _ _ Shlex.LSpace false "" absent).
    change (Py.chars "'") with ["'"%char]. cbn [Shlex.tokens].
    rewrite Ascii.eqb_refl. simpl.
    unfold Py.str, Py.chars. rewrite string_of_list_ascii_of_string.
    reflexivity.
  - change (Py.chars ("'" ++ text)%string) with ("'"%char :: Py.chars text).
    cbn [Shlex.tokens].
    change (Shlex.whitespace "'") with false.
    change (Shlex.escape "'") with false.
    change (Shlex.quotes "'") with true. cbv iota.
    rewrite <- (app_nil_r (Py.chars text)).
    rewrite (@tokens_single_quoted _ _ Shlex.LSpace false "" absent).
    reflexivity.
Qed.

Lemma split_single_quoted_witness :
  Shlex.split ("'" ++ "/home/my user/a\b.c" ++ "'")%string
  = Ok ["/home/my user/a\b.c"]
  /\ Shlex.split ("'" ++ "/home/my user/a\b.c")%string
     = Raise (ValueError "No closing quotation").
Proof.
  apply split_single_quoted. vm_compute. intuition discriminate.
Defined.

(** ** Paths *)

Lemma split_on_nonempty (sep : ascii) (s : string) :
  Pathlib.split_on sep s <> [].
Proof.
  destruct s as [| c s]; simpl; [discriminate |].
  destruct (Pathlib.split_on sep s); [discriminate |].
  destruct (Ascii.eqb c sep); discriminate.
Qed.

Lemma split_on_app (sep : ascii) (x y : string) :
  Pathlib.split_on sep (x ++ String sep y)%string
  = Pathlib.split_on sep x ++ Pathlib.split_on sep y.
Proof.
  induction x as [| c x IH].
  - simpl. rewrite Ascii.eqb_refl.
    destruct (Pathlib.split_on sep y) eqn:E; [| reflexivity].
    contradiction (split_on_nonempty sep y).
  - cbn [String.append Pathlib.split_on]. rewrite IH.
    destruct (Pathlib.split_on sep x) as [| w ws] eqn:E.
    { contradiction (split_on_nonempty sep x). }
    cbn [app]. destruct (Ascii.eqb c sep); reflexivity.
Qed.

Lemma split_on_component (sep : ascii) (x : string) :
  ~ In sep (Py.chars x) -> Pathlib.split_on sep x = [x].
Proof.
  induction x as [| c x IH]; intros absent; [reflexivity |].
  cbn [Pathlib.split_on]. rewrite IH.
  - destruct (Ascii.eqb_spec c sep) as [-> | _]; [| reflexivity].
    contradiction absent. left. reflexivity.
  - intros H. apply absent. right. exact H.
Qed.

Lemma startswith_app (p d rest : string) :
  String.length p <= String.length d ->
  Py.startswith p (d ++ rest)%string = Py.startswith p d.
Proof.
  revert d. induction p as [| a p IH]; intros d H; [reflexivity |].
  destruct d as [| b d]; [simpl in H; lia |].
  cbn [String.append Py.startswith]. rewrite IH by (simpl in H; lia).
  reflexivity.
Qed.

Lemma path_root_directory (dir rest : string) :
  dir <> "" ->
  Py.endswith "/" dir = false ->
  Pathlib.path_root (dir ++ String "/" rest)%string = Pathlib.path_root dir.
Proof.
  intros nonempty open_. unfold Pathlib.path_root.
  destruct dir as [| c1 [| c2 [| c3 d]]]; try (contradiction nonempty; reflexivity).
  - destruct (Ascii.eqb_spec "/" c1) as [<- | Hc1]; [discriminate open_ |].
    cbn [String.append Py.startswith].
    apply Ascii.eqb_neq in Hc1. rewrite Hc1. reflexivity.
  - destruct (Ascii.eqb_spec "/" c2) as [<- | Hc2].
    { destruct c1 as [[] [] [] [] [] [] [] []]; discriminate open_. }
    cbn [String.append Py.startswith].
    apply Ascii.eqb_neq in Hc2. rewrite Hc2.
    rewrite !andb_false_r. reflexivity.
  - rewrite !startswith_app by (simpl; lia). reflexivity.
Qed.

(** The directory two levels above [dir/a/b] is [dir]. *)
Lemma grandparent_directory (dir a b : string) :
  dir <> "" ->
  Py.endswith "/" dir = false ->
  Pathlib.is_component a = true -> ~ In "/"%char (Py.chars a) ->
  Pathlib.is_component b = true -> ~ In "/"%char (Py.chars b) ->
  Pathlib.parent (Pathlib.parent
                    (Pathlib.make (dir ++ "/" ++ a ++ "/" ++ b)%string))
  = Pathlib.make dir.
Proof.
  intros nonempty open_ Ha Sa Hb Sb.
  unfold Pathlib.parent, Pathlib.make. cbn [Pathlib.root Pathlib.parts].
  change (dir ++ "/" ++ a ++ "/" ++ b)%string
    with (dir ++ String "/" (a ++ String "/" b))%string.
  rewrite (path_root_directory _ nonempty open_). f_equal.
  rewrite !split_on_app, (@split_on_component _ _ Sa), (@split_on_component _ _ Sb).
  rewrite !filter_app. simpl. rewrite Ha, Hb.
  rewrite app_assoc, removelast_last, removelast_last. reflexivity.
Qed.

(** ** The cache directory *)

(** X25: [sketch_cache] reads the last line of the CORE stage only: the
    lines before it do not count.  When no token of that line ends in
    [core.a] it fails its assertion; when the first such token is
    [dir/a/b], the cache directory is [dir]. *)
Theorem sketch_cache_last_line :
  forall (stages : dict Stage (list string)) (earlier : list string)
         (last_line : string) (tokens : list string),
    dict_get Stage_eqb stages CORE = Some (earlier ++ [last_line]) ->
    safe_split last_line false = Ok tokens ->
    (filter (Py.endswith "core.a") tokens = [] ->
     sketch_cache stages = Raise (AssertionError "Could not find core.a"))
    /\ (forall dir a b others,
           filter (Py.endswith "core.a") tokens
           = (dir ++ "/" ++ a ++ "/" ++ b)%string :: others ->
           dir <> "" ->
           Py.endswith "/" dir = false ->
           Pathlib.is_component a = true -> ~ In "/"%char (Py.chars a) ->
           Pathlib.is_component b = true -> ~ In "/"%char (Py.chars b) ->
           sketch_cache stages = Ok (Pathlib.make dir)).
Proof.
  intros stages earlier last_line tokens Hstage Hsplit.
  assert (run : sketch_cache stages
                = match filter (Py.endswith "core.a") tokens with
                  | [] => Raise (AssertionError "Could not find core.a")
                  | core_archive :: _ =>
                      Ok (Pathlib.parent
                            (Pathlib.parent (Pathlib.make core_archive)))
                  end).
  { unfold sketch_cache. rewrite Hstage.
    destruct (earlier ++ [last_line]) as [| l ls] eqn:E.
    { destruct earlier; discriminate E. }
    rewrite <- E, last_last, Hsplit. reflexivity. }
  split.
  - intros none. rewrite run, none. reflexivity.
  - intros dir a b others found nonempty open_ Ha Sa Hb Sb.
    rewrite run, found. f_equal.
    apply grandparent_directory; assumption.
Qed.

Lemma sketch_cache_last_line_witness :
  sketch_cache [(CORE, ["avr-ar rcs /tmp/other/core/core.a a.o"] ++ ["echo done"])]
  = Raise (AssertionError "Could not find core.a")
  /\ sketch_cache
       [(CORE, ["echo start"]
                 ++ ["avr-ar rcs /tmp/arduino/cores/core.a /tmp/arduino/a.o"])]
     = Ok (Pathlib.make "/tmp/arduino").
Proof.
  split.
  - apply (proj1 (@sketch_cache_last_line
                    [(CORE, ["avr-ar rcs /tmp/other/core/core.a a.o"]
                              ++ ["echo done"])]
                    ["avr-ar rcs /tmp/other/core/core.a a.o"] "echo done"
                    ["echo"; "done"] eq_refl eq_refl)).
    reflexivity.
  - apply (proj2 (@sketch_cache_last_line
                    [(CORE, ["echo start"]
                              ++ ["avr-ar rcs /tmp/arduino/cores/core.a /tmp/arduino/a.o"])]
                    ["echo start"]
                    "avr-ar rcs /tmp/arduino/cores/core.a /tmp/arduino/a.o"
                    ["avr-ar"; "rcs"; "/tmp/arduino/cores/core.a"; "/tmp/arduino/a.o"]
                    eq_refl eq_refl)
             "/tmp/arduino" "cores" "core.a" []).
    all: try reflexivity; try discriminate.
    all: vm_compute; intuition discriminate.
Defined.

(** ** Source names *)

Lemma Source_eqb_spec (a b : Source) : reflect (a = b) (Source_eqb a b).
Proof. destruct a, b; simpl; constructor; congruence. Qed.

(** X26: [real_source_names] keeps the keys of the source mapping and
    their order, and gives every source kind the name of its file, with
    [.cpp] added for the sketch; the object names follow, one per source,
    in the same order. *)
Theorem real_source_names_lookup :
  forall (sources : dict Source Path) (source : Source),
    dict_keys (real_source_names sources) = dict_keys sources
    /\ dict_get Source_eqb (real_source_names sources) source
       = option_map
           (fun path =>
              match source with
              | SRC_INO => (Pathlib.name path ++ ".cpp")%string
              | _ => Pathlib.name path
              end)
           (dict_get Source_eqb sources source)
    /\ length (object_names_of sources) = length sources.
Proof.
  intros sources source. repeat split.
  - unfold dict_keys, real_source_names. rewrite map_map.
    apply map_ext. intros [s p]. reflexivity.
  - induction sources as [| [s p] sources IH]; [reflexivity |].
    simpl. destruct (Source_eqb_spec s source) as [-> | _]; [| exact IH].
    destruct source; reflexivity.
  - unfold object_names_of, dict_values, real_source_names.
    rewrite !length_map. reflexivity.
Qed.

(** ** The link line of an empty source mapping *)

Section NoSources.
Context {RE : RegexEngine}.

(** X27: with an empty source mapping there is no object name to look for
    and every line of the LINK stage passes for the link line: a stage of
    one line gives that line and no post-link step, and a stage of two or
    more lines is ambiguous for [link_tokens] and [post_link_lines]. *)
Theorem link_line_without_sources :
  forall (stages : dict Stage (list string)),
    (forall line,
        dict_get_or Stage_eqb stages LINK [] = [line] ->
        identify_link_line stages (object_names_of []) = Ok line
        /\ post_link_lines stages [] = Ok [])
    /\ (forall line1 line2 more,
           dict_get_or Stage_eqb stages LINK [] = line1 :: line2 :: more ->
           link_tokens stages [] = Raise MultipleInvocationException
           /\ post_link_lines stages [] = Raise MultipleInvocationException).
Proof.
  intros stages.
  assert (every : forall single,
             identify_line LINK stages (match_all []) single
             = match filter (fun _ => true) (dict_get_or Stage_eqb stages LINK []) with
               | [] => Raise (MissingStageException LINK)
               | first :: others =>
                   if single && negb (Nat.eqb (length others) 0)
                   then Raise MultipleInvocationException
                   else Ok first
               end).
  { intros single. apply identify_line_filter. intros line _. reflexivity. }
  split.
  - intros line one.
    assert (found : identify_link_line stages (object_names_of []) = Ok line).
    { unfold identify_link_line. change (object_names_of []) with (@nil string).
      rewrite every, one. reflexivity. }
    split; [exact found |].
    unfold post_link_lines. rewrite found. cbn [bind]. rewrite one.
    simpl. rewrite String.eqb_refl. reflexivity.
  - intros line1 line2 more many.
    unfold link_tokens, post_link_lines, identify_link_line.
    change (object_names_of []) with (@nil string).
    rewrite every, many. split; reflexivity.
Qed.

End NoSources.

Lemma link_line_without_sources_witness :
  (identify_link_line [(LINK, [link_line])] (object_names_of []) = Ok link_line
   /\ post_link_lines [(LINK, [link_line])] [] = Ok [])
  /\ (link_tokens link_stage [] = Raise MultipleInvocationException
      /\ post_link_lines link_stage [] = Raise MultipleInvocationException).
Proof.
  split.
  - apply (proj1 (link_line_without_sources [(LINK, [link_line])])).
    reflexivity.
  - apply (proj2 (link_line_without_sources link_stage) link_line objcopy_line []).
    reflexivity.
Defined.

(** ** The cleaner of the compile recipe *)

Lemma last_cons_default {A} (l : list A) :
  forall x d, last (x :: l) d = last l x.
Proof.
  induction l as [| y l IH]; intros x d; [reflexivity |].
  change (last (x :: y :: l) d) with (last (y :: l) d).
  rewrite (IH y d), (IH y x). reflexivity.
Qed.

Section ScanParts.
Context {RE : RegexEngine}.

(** A scan of two lists put together is the scan of the first and then of
    the second, which starts from the last token of the first. *)
Lemma scan_flags_app (flags : dict string Check) (negate : bool)
  (l1 l2 : list string) :
  forall previous,
    scan_flags flags negate previous (l1 ++ l2)
    = (a <- scan_flags flags negate previous l1 ;;
       b <- scan_flags flags negate (last l1 previous) l2 ;;
       Ok (a ++ b)).
Proof.
  induction l1 as [| x l1 IH]; intros previous.
  - simpl. destruct (scan_flags flags negate previous l2); reflexivity.
  - cbn [app scan_flags].
    destruct (flag_value flags x previous) as [value | e]; [| reflexivity].
    cbn [bind]. rewrite IH.
    rewrite last_cons_default.
    destruct (scan_flags flags negate x l1) as [a | e]; [| reflexivity].
    cbn [bind].
    destruct (scan_flags flags negate (last l1 x) l2) as [b | e]; [| reflexivity].
    cbn [bind]. destruct (if negate then negb value else value); reflexivity.
Qed.

End ScanParts.

Lemma search_dash (k : ascii) (x : string) :
  Re.search [Re.Lit "-"; Re.Lit k] (Py.str_take 2 x)
  = Py.startswith (String "-" (String k "")) x.
Proof.
  destruct x as [| a [| b x]].
  - reflexivity.
  - cbn. rewrite !andb_false_r. reflexivity.
  - cbn [Py.str_take Re.search Py.chars list_ascii_of_string Re.search_from
         Re.match_here Py.startswith].
    rewrite !andb_true_r, !andb_false_r, !orb_false_r. reflexivity.
Qed.

Lemma compile_cleaner_value (token previous : string) :
  flag_value compile_cleaner_flags token previous
  = Ok (Py.startswith "-c" token || Py.startswith "-o" token
        || Py.startswith "-o" previous).
Proof.
  unfold flag_value, match_any, compile_cleaner_flags.
  change (mapM re_compile (dict_keys [("-c", Const false); ("-o", Const true)]))
    with (Ok [[Re.Lit "-"; Re.Lit "c"]; [Re.Lit "-"; Re.Lit "o"]]
          : result (list Re.regex)).
  cbn [bind existsb re_search python_re]. rewrite !search_dash, orb_false_r.
  destruct (Py.startswith "-c" token || Py.startswith "-o" token) eqn:E.
  - reflexivity.
  - change (mapM re_compile
              (map fst
                 (filter (fun '(_, check) =>
                            match check with
                            | Const check0 => check0
                            | Callable check0 => check0 previous
                            end)
                         [("-c", Const false); ("-o", Const true)])))
      with (Ok [[Re.Lit "-"; Re.Lit "o"]] : result (list Re.regex)).
    cbn [bind existsb re_search python_re]. rewrite search_dash, orb_false_r.
    reflexivity.
Qed.

Lemma compile_cleaner_previous (previous : string) (tokens : list string) :
  Py.startswith "-o" previous = false ->
  scan_flags compile_cleaner_flags false previous tokens
  = scan_flags compile_cleaner_flags false (hd "" tokens) tokens.
Proof.
  intros plain. destruct tokens as [| token rest]; [reflexivity |].
  cbn [scan_flags hd]. rewrite !compile_cleaner_value, plain.
  rewrite orb_false_r.
  replace (Py.startswith "-c" token || Py.startswith "-o" token
           || Py.startswith "-o" token)
    with (Py.startswith "-c" token || Py.startswith "-o" token)
    by (destruct (Py.startswith "-c" token), (Py.startswith "-o" token);
        reflexivity).
  reflexivity.
Qed.

(** X28: the cleaner table of [build_tokens] removes [-o] together with
    the token after it, and [-c] alone, wherever they stand in the line:
    what is left is what the filter leaves of the tokens before and of the
    tokens after, each filtered on its own. *)
Theorem cleaner_drops_output_pair :
  forall (pre post : list string) (argument : string),
    (Py.startswith "-o" argument = false ->
     filter_by_flags compile_cleaner_flags (pre ++ "-o" :: argument :: post) false
     = (a <- filter_by_flags compile_cleaner_flags pre false ;;
        b <- filter_by_flags compile_cleaner_flags post false ;;
        Ok (a ++ b)))
    /\ filter_by_flags compile_cleaner_flags (pre ++ "-c" :: post) false
       = (a <- filter_by_flags compile_cleaner_flags pre false ;;
          b <- filter_by_flags compile_cleaner_flags post false ;;
          Ok (a ++ b)).
Proof.
  intros pre post argument.
  assert (start : forall rest,
             scan_flags compile_cleaner_flags false (hd "" (pre ++ rest)) pre
             = scan_flags compile_cleaner_flags false (hd "" pre) pre).
  { intros rest. destruct pre; reflexivity. }
  split.
  - intros plain. rewrite !filter_by_flags_scan, scan_flags_app, start.
    destruct (scan_flags compile_cleaner_flags false (hd "" pre) pre)
      as [a | e]; [| reflexivity].
    cbn [bind scan_flags]. rewrite !compile_cleaner_value.
    change (Py.startswith "-o" "-o") with true.
    rewrite !orb_true_r. cbn [bind].
    rewrite (@compile_cleaner_previous _ post plain).
    destruct (scan_flags compile_cleaner_flags false (hd "" post) post);
      reflexivity.
  - rewrite !filter_by_flags_scan, scan_flags_app, start.
    destruct (scan_flags compile_cleaner_flags false (hd "" pre) pre)
      as [a | e]; [| reflexivity].
    cbn [bind scan_flags]. rewrite !compile_cleaner_value.
    change (Py.startswith "-c" "-c") with true. cbn [orb bind].
    rewrite (@compile_cleaner_previous "-c" post eq_refl).
    destruct (scan_flags compile_cleaner_flags false (hd "" post) post);
      reflexivity.
Qed.

Lemma cleaner_drops_output_pair_witness :
  filter_by_flags compile_cleaner_flags
    (["avr-gcc"; "-c"; "-Os"] ++ "-o" :: "main.c.o" :: ["main.c"]) false
  = (a <- filter_by_flags compile_cleaner_flags ["avr-gcc"; "-c"; "-Os"] false ;;
     b <- filter_by_flags compile_cleaner_flags ["main.c"] false ;;
     Ok (a ++ b)).
Proof.
  apply (proj1 (cleaner_drops_output_pair ["avr-gcc"; "-c"; "-Os"] ["main.c"]
                  "main.c.o")).
  reflexivity.
Defined.

(** ** The sorter of the compile recipe *)

Lemma include_sorter_value (token previous : string) :
  flag_value include_sorter_flags token previous
  = Ok (Py.startswith "-I" token || String.eqb previous "-I").
Proof.
  unfold flag_value, match_any, include_sorter_flags.
  change (mapM re_compile
            (dict_keys [("-I", Callable (fun item => String.eqb item "-I"))]))
    with (Ok [[Re.Lit "-"; Re.Lit "I"]] : result (list Re.regex)).
  cbn [bind existsb re_search python_re]. rewrite search_dash, orb_false_r.
  destruct (Py.startswith "-I" token); [reflexivity |].
  cbn [filter map fst orb].
  destruct (String.eqb_spec previous "-I") as [-> | _]; reflexivity.
Qed.

Lemma include_sorter_previous (previous : string) (tokens : list string) :
  previous <> "-I" ->
  scan_flags include_sorter_flags true previous tokens
  = scan_flags include_sorter_flags true (hd "" tokens) tokens.
Proof.
  intros plain. destruct tokens as [| token rest]; [reflexivity |].
  cbn [scan_flags hd]. rewrite !include_sorter_value.
  apply String.eqb_neq in plain. rewrite plain, orb_false_r.
  destruct (Py.startswith "-I" token) eqn:E; [reflexivity |].
  destruct (String.eqb_spec token "-I") as [-> | _]; [discriminate E |].
  reflexivity.
Qed.

(** X29: asked for the include tokens ([negate] set), the sorter table of
    [build_tokens] gives every token that starts with [-I], and a lone
    [-I] together with the token after it, wherever they stand in the
    line, in the order of the line. *)
Theorem sorter_takes_includes :
  forall (pre post : list string) (path : string),
    (path <> "-I" ->
     filter_by_flags include_sorter_flags (pre ++ "-I" :: path :: post) true
     = (a <- filter_by_flags include_sorter_flags pre true ;;
        b <- filter_by_flags include_sorter_flags post true ;;
        Ok (a ++ "-I" :: path :: b)))
    /\ (path <> "" ->
        filter_by_flags include_sorter_flags
          (pre ++ ("-I" ++ path)%string :: post) true
        = (a <- filter_by_flags include_sorter_flags pre true ;;
           b <- filter_by_flags include_sorter_flags post true ;;
           Ok (a ++ ("-I" ++ path)%string :: b))).
Proof.
  intros pre post path.
  assert (start : forall rest,
             scan_flags include_sorter_flags true (hd "" (pre ++ rest)) pre
             = scan_flags include_sorter_flags true (hd "" pre) pre).
  { intros rest. destruct pre; reflexivity. }
  split.
  - intros plain. rewrite !filter_by_flags_scan, scan_flags_app, start.
    destruct (scan_flags include_sorter_flags true (hd "" pre) pre)
      as [a | e]; [| reflexivity].
    cbn [bind scan_flags]. rewrite !include_sorter_value.
    change (Py.startswith "-I" "-I") with true.
    change (String.eqb "-I" "-I") with true.
    rewrite !orb_true_r. cbn [orb bind negb].
    rewrite (@include_sorter_previous _ post plain).
    destruct (scan_flags include_sorter_flags true (hd "" post) post);
      reflexivity.
  - intros nonempty. rewrite !filter_by_flags_scan, scan_flags_app, start.
    destruct (scan_flags include_sorter_flags true (hd "" pre) pre)
      as [a | e]; [| reflexivity].
    cbn [bind scan_flags]. rewrite !include_sorter_value.
    change (Py.startswith "-I" ("-I" ++ path)) with true. cbn [orb bind negb].
    rewrite (@include_sorter_previous ("-I" ++ path)%string post).
    + destruct (scan_flags include_sorter_flags true (hd "" post) post);
        reflexivity.
    + intros E. apply nonempty. destruct path; [reflexivity | discriminate E].
Qed.

Lemma sorter_takes_includes_witness :
  filter_by_flags include_sorter_flags
    (["-Os"] ++ "-I" :: "include" :: ["-g"; "-Ilib"]) true
  = (a <- filter_by_flags include_sorter_flags ["-Os"] true ;;
     b <- filter_by_flags include_sorter_flags ["-g"; "-Ilib"] true ;;
     Ok (a ++ "-I" :: "include" :: b))
  /\ filter_by_flags include_sorter_flags
       (["-Os"] ++ ("-I" ++ "include")%string :: ["-g"]) true
     = (a <- filter_by_flags include_sorter_flags ["-Os"] true ;;
        b <- filter_by_flags include_sorter_flags ["-g"] true ;;
        Ok (a ++ ("-I" ++ "include")%string :: b)).
Proof.
  split.
  - apply (proj1 (sorter_takes_includes ["-Os"] ["-g"; "-Ilib"] "include")).
    discriminate.
  - apply (proj2 (sorter_takes_includes ["-Os"] ["-g"] "include")).
    discriminate.
Defined.
